(** * nodejs-monolith: the request pipeline

  validation stage -> transport handler -> facade / use case -> repository

  A shallow embedding of the Express routers of the four modules
  (client-adm, product-adm, store-catalog, payment), of the shared
  [validateBody] middleware and of the payment domain rule, with the
  properties of the pipeline stated over it.

  Conventions.
  - A JavaScript number is a rational [Q]: every finite double is a
    rational and the code only compares amounts, it never computes with
    them.  [NaN] and the infinities cannot come out of [express.json()].
  - A JavaScript object is an association list in key order
    ([Object.keys] order); a property that is absent reads as
    [JsUndefined].
  - An awaited call either resolves with a value or rejects with the
    thrown value: [Outcome].
  - A store is a finite map from identifiers to rows. *)

From Stdlib Require Import QArith ZArith String Ascii List Bool Lia.
From stdpp Require Import base option list gmap strings pretty.

Set Warnings "-register-all".
Local Open Scope string_scope.
Local Open Scope list_scope.
Local Open Scope Z_scope.

(** ** JavaScript values *)

Inductive JsValue : Type :=
| JsUndefined
| JsNull
| JsBoolean (b : bool)
| JsNumber (n : Q)
| JsString (s : string)
| JsDate (ms : Z)
| JsArray (items : list JsValue)
| JsObject (fields : list (string * JsValue)).

(** A plain object: the list of its own enumerable properties. *)
Definition Obj : Type := list (string * JsValue).

(** [Object.keys(o)]. *)
Definition keys (o : Obj) : list string := map fst o.

(** [o[k]] as an optional value: [None] when [k] is not an own property. *)
Fixpoint own (o : Obj) (k : string) : option JsValue :=
match o with
| [] => None
| (k', v) :: o' => if String.eqb k' k then Some v else own o' k
end.

(** [o.k]: an absent property reads as [undefined]. *)
Definition prop (o : Obj) (k : string) : JsValue :=
match own o k with
| Some v => v
| None => JsUndefined
end.

(** [v === s] for a string literal [s]. *)
Definition strictEqString (v : JsValue) (s : string) : bool :=
match v with
| JsString s' => String.eqb s' s
| _ => false
end.

(** ** Strings *)

Module Str.

(** The double quote, which Joi wraps around a label. *)
Definition dquote : string := String "034"%char EmptyString.

Definition lowerAscii (c : ascii) : ascii :=
  let n := nat_of_ascii c in
  if ((65 <=? n)%nat && (n <=? 90)%nat)%bool then ascii_of_nat (n + 32) else c.

(** [s.toLowerCase()].  On the letters of the needle ["not found"] the
    Unicode mapping and the ASCII one agree: no character outside ASCII
    lowercases to one of them. *)
Fixpoint toLowerCase (s : string) : string :=
  match s with
  | EmptyString => EmptyString
  | String c s' => String (lowerAscii c) (toLowerCase s')
  end.

(** [s.includes(needle)]. *)
Fixpoint includes (s needle : string) : bool :=
  if String.prefix needle s then true
  else match s with
       | EmptyString => false
       | String _ s' => includes s' needle
       end.

(** [parts.join(sep)]. *)
Definition join (sep : string) (parts : list string) : string :=
  String.concat sep parts.

(** [needle] occurs in [s]. *)
Definition Substring (needle s : string) : Prop :=
  exists pre post, s = pre +:+ needle +:+ post.

End Str.

(** ** The transport layer *)

Module Http.

(** What a [catch] clause receives: an [Error] instance with its
    [message], or any other thrown value. *)
Inductive Thrown : Type :=
  | ErrorInstance (message : string)
  | NonError (v : JsValue).

Inductive Outcome (A : Type) : Type :=
  | Resolved (a : A)
  | Rejected (e : Thrown).
Global Arguments Resolved {A} a.
Global Arguments Rejected {A} e.

(** [res.status(statusCode).json(body)]. *)
Record Response : Type := mkResponse { statusCode : Z; body : Obj }.

(** [{ error: message }]. *)
Definition errorBody (message : string) : Obj := [("error", JsString message)].

(** [error instanceof Error ? error.message : 'Internal server error']. *)
Definition messageOf (error : Thrown) : string :=
  match error with
  | ErrorInstance message => message
  | NonError _ => "Internal server error"
  end.

(** The [catch] clause of the POST handlers and of the catalog list. *)
Definition catchPlain (error : Thrown) : Response :=
  let message := messageOf error in
  mkResponse 500 (errorBody message).

(** The [catch] clause of the three GET lookups. *)
Definition catchLookup (error : Thrown) : Response :=
  let message := messageOf error in
  let status :=
    if Str.includes (Str.toLowerCase message) "not found" then 404 else 500 in
  mkResponse status (errorBody message).

(** What a middleware does with a request: it answers, or it calls
    [next()] with the (possibly replaced) [req.body]. *)
Inductive Middleware : Type :=
  | Responded (res : Response)
  | Next (reqBody : Obj).

End Http.
Import Http.

(** ** Joi: the validation library

    Joi is a dependency of the repository, not code of it: what follows is
    the library's documented behaviour, not a translation of a source
    file.

    [schema.validate(value, { abortEarly: false })] for the schema shapes
    the routers build: an object of string and number children, each
    required or optional, with the rules [email], [positive], [integer]
    and [min].  Every other preference keeps the library's default:
    [convert] is on (a numeric string given for a number is converted),
    [presence] is optional, [allowUnknown] and [stripUnknown] are off (a
    key the schema does not declare is an error).

    A child is validated in the library's order: conversion, presence,
    base type (an error there ends the child), then every rule, each
    failing rule adding its own detail.  The object validates its
    children in schema order and then reports the keys it does not
    know; nothing stops at the first error. *)

Module Joi.

Inductive StringRule : Type :=
| Email.

Inductive NumberRule : Type :=
| Positive
| Integer
| Min (limit : Z).

Inductive Presence : Type :=
| Optional
| Required.

Inductive Schema : Type :=
| TString (rules : list StringRule) (presence : Presence)
| TNumber (rules : list NumberRule) (presence : Presence).

(** [Joi.object({ key: child, ... })]: the children in declaration order. *)
Definition ObjectSchema : Type := list (string * Schema).

(** One entry of [error.details]. *)
Record Detail : Type := mkDetail { message : string; path : string; type : string }.

(** What converting a string to a number gives: no match of the number
    pattern, a number, or a number that does not survive the round trip
    through its decimal rendering. *)
Inductive Coercion : Type :=
| NotNumeric
| Numeric (n : Q)
| UnsafeNumeric (n : Q).

(** [Number.MAX_SAFE_INTEGER]. *)
Definition MAX_SAFE_INTEGER : Z := 2 ^ 53 - 1.

Definition unsafe (n : Q) : bool :=
negb (Qle_bool n (inject_Z MAX_SAFE_INTEGER))
|| negb (Qle_bool (inject_Z (- MAX_SAFE_INTEGER)) n).

(** [Math.trunc(value) - value === 0]. *)
Definition isInteger (n : Q) : bool :=
(Qnum n mod Zpos (Qden n) =? 0)%Z.

(** The label of a key in a message: the key between double quotes. *)
Definition label (key : string) : string :=
Str.dquote +:+ key +:+ Str.dquote.

Definition report (type key text : string) : Detail :=
mkDetail (label key +:+ " " +:+ text) key type.

Definition presenceErrors (key : string) (presence : Presence) : list Detail :=
match presence with
| Required => [report "any.required" key "is required"]
| Optional => []
end.

Definition numberRule (key : string) (value : Q) (rule : NumberRule) : list Detail :=
match rule with
| Positive =>
    if negb (Qle_bool value 0) then []
    else [report "number.positive" key "must be a positive number"]
| Integer =>
    if isInteger value then []
    else [report "number.integer" key "must be an integer"]
| Min limit =>
    if Qle_bool (inject_Z limit) value then []
    else [report "number.min" key
            ("must be greater than or equal to " +:+ pretty limit)]
end.

Section Validator.

(** The library's two recognisers of strings stay abstract: the number
    pattern with [parseFloat], and the address grammar behind [email]. *)
Variable coerceNumber : string -> Coercion.
Variable isEmailValid : string -> bool.

Definition stringRule (key : string) (value : string) (rule : StringRule) : list Detail :=
match rule with
| Email =>
    if isEmailValid value then []
    else [report "string.email" key "must be a valid email"]
end.

Definition checkNumber (key : string) (rules : list NumberRule) (n : Q) : JsValue * list Detail :=
if unsafe n then (JsNumber n, [report "number.unsafe" key "must be a safe number"])
else (JsNumber n, flat_map (numberRule key n) rules).

(** One child: the resulting value and the details it adds. *)
Definition validateChild (key : string) (schema : Schema) (item : JsValue) : JsValue * list Detail :=
match schema with
| TString rules presence =>
    match item with
    | JsUndefined => (item, presenceErrors key presence)
    | JsString s =>
        if String.eqb s "" then
          (item, [report "string.empty" key "is not allowed to be empty"])
        else (item, flat_map (stringRule key s) rules)
    | _ => (item, [report "string.base" key "must be a string"])
    end
| TNumber rules presence =>
    match item with
    | JsUndefined => (item, presenceErrors key presence)
    | JsNumber n => checkNumber key rules n
    | JsString s =>
        match coerceNumber s with
        | NotNumeric => (item, [report "number.base" key "must be a number"])
        | Numeric n => checkNumber key rules n
        | UnsafeNumeric n =>
            (JsNumber n, [report "number.unsafe" key "must be a safe number"])
        end
    | _ => (item, [report "number.base" key "must be a number"])
    end
end.

(** [value[key] = v] on the clone the object validator works on. *)
Fixpoint setOwn (value : Obj) (key : string) (v : JsValue) : Obj :=
match value with
| [] => [(key, v)]
| (k, v') :: rest =>
    if String.eqb k key then (k, v) :: rest else (k, v') :: setOwn rest key v
end.

(** The loop over [schema.$_terms.keys]. *)
Fixpoint validateKeys (children : ObjectSchema) (value : Obj) : Obj * list Detail :=
match children with
| [] => (value, [])
| (key, child) :: rest =>
    let item := prop value key in
    let '(result, errors) := validateChild key child item in
    let value' :=
      match result with
      | JsUndefined => value
      | _ => setOwn value key result
      end in
    let '(value'', errors') := validateKeys rest value' in
    (value'', errors ++ errors')
end.

Definition declares (children : ObjectSchema) (key : string) : bool :=
existsb (String.eqb key) (map fst children).

(** The keys left unprocessed, each one an [object.unknown] error. *)
Definition unknownKeys (children : ObjectSchema) (value : Obj) : list Detail :=
flat_map
  (fun key =>
     if declares children key then []
     else [report "object.unknown" key "is not allowed"])
  (keys value).

(** [schema.validate(value, { abortEarly: false })]: the pair
    [{ error, value }], [error] being the details when there are any. *)
Definition validate (schema : ObjectSchema) (value : Obj) : option (list Detail) * Obj :=
let '(value', errors) := validateKeys schema value in
match errors ++ unknownKeys schema value with
| [] => (None, value')
| details => (Some details, value')
end.

End Validator.

End Joi.

(** ** The validation stage: [@shared/middleware/validate] *)

Section Middleware.

Variable coerceNumber : string -> Joi.Coercion.
Variable isEmailValid : string -> bool.

(** [validateBody(schema)]: 400 with the joined messages when Joi reports
    an error, the handler being skipped; otherwise [req.body] becomes
    Joi's value and [next()] is called. *)
Definition validateBody (schema : Joi.ObjectSchema) (reqBody : Obj) : Middleware :=
let '(error, value) := Joi.validate coerceNumber isEmailValid schema reqBody in
match error with
| Some details =>
    Responded (mkResponse 400 (errorBody (Str.join "; " (map Joi.message details))))
| None => Next value
end.

End Middleware.

(** [router.post(path, middleware, handler)]: the handler runs only when
    the middleware called [next()], on the body the middleware left.  The
    handler destructures [req.body] into the facade's input type; the
    result is [None] when the body does not have that type, which the
    schema rules out (see [payment_body_typed]). *)
Definition chain {W I : Type} (middleware : Obj -> Middleware)
  (destructure : Obj -> option I) (handler : I -> W -> Response * W)
  (reqBody : Obj) (w : W) : option (Response * W) :=
match middleware reqBody with
| Responded res => Some (res, w)
| Next reqBody' =>
    match destructure reqBody' with
    | Some input => Some (handler input w)
    | None => None
    end
end.

Definition asString (v : JsValue) : option string :=
match v with
| JsString s => Some s
| _ => None
end.

Definition asNumber (v : JsValue) : option Q :=
match v with
| JsNumber n => Some n
| _ => None
end.

(** An optional string property: absent, or a string. *)
Definition asOptionalString (v : JsValue) : option (option string) :=
match v with
| JsUndefined => Some None
| JsString s => Some (Some s)
| _ => None
end.

(** An awaited facade call: it runs on the state of the outside world and
    resolves or rejects. *)
Definition Call (W I O : Type) : Type := I -> W -> Outcome O * W.

(** ** client-adm: [routes/client-adm.routes.ts] *)

Module clientAdm.

Definition createClientSchema : Joi.ObjectSchema :=
[ ("id", Joi.TString [] Joi.Optional);
  ("name", Joi.TString [] Joi.Required);
  ("email", Joi.TString [Joi.Email] Joi.Required);
  ("address", Joi.TString [] Joi.Required) ].

Record AddClientFacadeInputDto : Type := mkAddClientInput
  { id : option string; name : string; email : string; address : string }.

(** [const { id, name, email, address } = req.body]. *)
Definition destructure (reqBody : Obj) : option AddClientFacadeInputDto :=
id ← asOptionalString (prop reqBody "id");
name ← asString (prop reqBody "name");
email ← asString (prop reqBody "email");
address ← asString (prop reqBody "address");
Some (mkAddClientInput id name email address).

(** POST /api/clients, after validation. *)
Definition post {W : Type} (facade_add : Call W AddClientFacadeInputDto unit)
  (input : AddClientFacadeInputDto) (w : W) : Response * W :=
match facade_add input w with
| (Resolved _, w') =>
    (mkResponse 201 [("message", JsString "Client created successfully")], w')
| (Rejected error, w') => (catchPlain error, w')
end.

(** GET /api/clients/:id. *)
Definition get {W : Type} (facade_find : Call W string Obj) (id : string) (w : W) : Response * W :=
match facade_find id w with
| (Resolved client, w') => (mkResponse 200 client, w')
| (Rejected error, w') => (catchLookup error, w')
end.

End clientAdm.

(** ** product-adm: [routes/product-adm.routes.ts] *)

Module productAdm.

Definition createProductSchema : Joi.ObjectSchema :=
[ ("id", Joi.TString [] Joi.Optional);
  ("name", Joi.TString [] Joi.Required);
  ("description", Joi.TString [] Joi.Required);
  ("purchasePrice", Joi.TNumber [Joi.Positive] Joi.Required);
  ("stock", Joi.TNumber [Joi.Integer; Joi.Min 0] Joi.Required) ].

Record AddProductFacadeInputDto : Type := mkAddProductInput
  { id : option string; name : string; description : string;
    purchasePrice : Q; stock : Q }.

(** [const { id, name, description, purchasePrice, stock } = req.body]. *)
Definition destructure (reqBody : Obj) : option AddProductFacadeInputDto :=
id ← asOptionalString (prop reqBody "id");
name ← asString (prop reqBody "name");
description ← asString (prop reqBody "description");
purchasePrice ← asNumber (prop reqBody "purchasePrice");
stock ← asNumber (prop reqBody "stock");
Some (mkAddProductInput id name description purchasePrice stock).

(** POST /api/products, after validation. *)
Definition post {W : Type} (facade_addProduct : Call W AddProductFacadeInputDto unit)
  (input : AddProductFacadeInputDto) (w : W) : Response * W :=
match facade_addProduct input w with
| (Resolved _, w') =>
    (mkResponse 201 [("message", JsString "Product created successfully")], w')
| (Rejected error, w') => (catchPlain error, w')
end.

(** GET /api/products/:id/stock. *)
Definition getStock {W : Type} (facade_checkStock : Call W string Obj) (id : string) (w : W) : Response * W :=
match facade_checkStock id w with
| (Resolved result, w') => (mkResponse 200 result, w')
| (Rejected error, w') => (catchLookup error, w')
end.

End productAdm.

(** ** The store

    The three tables of [database/init/01-init.sql], each keyed by its
    identifier.  The price columns and the description are nullable. *)

Module database.

Record ClientRow : Type := mkClientRow
  { client_name : string; client_email : string; client_address : string;
    client_created_at : Z; client_updated_at : Z }.

Record ProductRow : Type := mkProductRow
  { product_name : string; product_description : string;
    purchase_price : option Q; sales_price : option Q; product_stock : Z;
    product_created_at : Z; product_updated_at : Z }.

End database.

(** A nullable number as a JavaScript value. *)
Definition nullable (n : option Q) : JsValue :=
match n with
| Some q => JsNumber q
| None => JsNull
end.

(** [@shared/domain/value-object/id.value-object]: the identifier is read
    as [entity.id.id]. *)
Module valueObject.

Record Id : Type := mkId { id : string }.

End valueObject.

(** ** store-catalog: [routes/store-catalog.routes.ts] and
    [usecase/find-all-products] *)

Module storeCatalog.

(** Modelled from the spec: the catalog's [Product] entity, which is not
    among the sources, with the four properties [FindAllProductsUsecase]
    reads. *)
Record Product : Type := mkProduct
  { id : valueObject.Id; name : string; description : string; salesPrice : option Q }.

(** Modelled from the spec: [gateway/product.gateway], the interface the
    use cases ask of the repository, which is not among the sources.  The
    lookup answers with an explicit absence, not with an exception. *)
Record ProductGateway (W : Type) : Type := mkGateway
  { findAll : W -> Outcome (list Product) * W;
    find : string -> W -> Outcome (option Product) * W }.
Global Arguments findAll {W} _ _.
Global Arguments find {W} _ _ _.

(** [FindAllProductsUsecase.execute]. *)
Definition FindAllProductsUsecase_execute {W : Type} (productRepository : ProductGateway W)
  (w : W) : Outcome Obj * W :=
match findAll productRepository w with
| (Rejected e, w') => (Rejected e, w')
| (Resolved products, w') =>
    (Resolved
       [ ("products",
          JsArray
            (map
               (fun product =>
                  JsObject
                    [ ("id", JsString (valueObject.id (id product)));
                      ("name", JsString (name product));
                      ("description", JsString (description product));
                      ("salesPrice", nullable (salesPrice product)) ])
               products)) ],
     w')
end.

(** Modelled from the spec: [FindProductUseCase.execute], which is not
    among the sources.  Look up by identifier; if absent, fail with a
    "not found" error (the message the README documents); otherwise the
    catalog projection. *)
Definition FindProductUseCase_execute {W : Type} (productRepository : ProductGateway W)
  (input_id : string) (w : W) : Outcome Obj * W :=
match find productRepository input_id w with
| (Rejected e, w') => (Rejected e, w')
| (Resolved None, w') => (Rejected (ErrorInstance "Product not found"), w')
| (Resolved (Some product), w') =>
    (Resolved
       [ ("id", JsString (valueObject.id (id product)));
         ("name", JsString (name product));
         ("description", JsString (description product));
         ("salesPrice", nullable (salesPrice product)) ],
     w')
end.

(** Modelled from the spec: the row-to-entity mapping of the catalog's
    repository, which is not among the sources.  The catalog view is a read
    projection of the products table, without the purchase price. *)
Definition toProduct (row : string * database.ProductRow) : Product :=
mkProduct (valueObject.mkId row.1) (database.product_name row.2)
  (database.product_description row.2) (database.sales_price row.2).

(** Modelled from the spec: the catalog's [ProductRepository], which is
    not among the sources, over the products table. *)
Definition ProductRepository : ProductGateway (gmap string database.ProductRow) :=
mkGateway _
  (fun products => (Resolved (map toProduct (map_to_list products)), products))
  (fun id products =>
     (Resolved ((fun row => toProduct (id, row)) <$> products !! id), products)).

(** Modelled from the spec: [StoreCatalogFacade.findAll], not among the
    sources.  It delegates to its use case. *)
Definition StoreCatalogFacade_findAll {W : Type} (productRepository : ProductGateway W)
  : W -> Outcome Obj * W :=
FindAllProductsUsecase_execute productRepository.

(** Modelled from the spec: [StoreCatalogFacade.find], not among the
    sources.  It delegates to its use case. *)
Definition StoreCatalogFacade_find {W : Type} (productRepository : ProductGateway W)
  : Call W string Obj :=
FindProductUseCase_execute productRepository.

(** GET /api/catalog/products. *)
Definition getAll {W : Type} (facade_findAll : W -> Outcome Obj * W) (w : W) : Response * W :=
match facade_findAll w with
| (Resolved result, w') => (mkResponse 200 result, w')
| (Rejected error, w') => (catchPlain error, w')
end.

(** GET /api/catalog/products/:id. *)
Definition get {W : Type} (facade_find : Call W string Obj) (id : string) (w : W) : Response * W :=
match facade_find id w with
| (Resolved product, w') => (mkResponse 200 product, w')
| (Rejected error, w') => (catchLookup error, w')
end.

End storeCatalog.

(** ** The lookups of the administration modules *)

Module lookups.

(** Modelled from the spec: client-adm's [FindClientUseCase.execute] over
    its repository, neither among the sources.  Look up by identifier; if
    absent, fail with a "not found" error (the message the README
    documents); otherwise the client's projection. *)
Definition FindClientUseCase_execute (input_id : string)
  (clients : gmap string database.ClientRow) : Outcome Obj * gmap string database.ClientRow :=
match clients !! input_id with
| None => (Rejected (ErrorInstance "Client not found"), clients)
| Some row =>
    (Resolved
       [ ("id", JsString input_id);
         ("name", JsString (database.client_name row));
         ("email", JsString (database.client_email row));
         ("address", JsString (database.client_address row));
         ("createdAt", JsDate (database.client_created_at row));
         ("updatedAt", JsDate (database.client_updated_at row)) ],
     clients)
end.

(** Modelled from the spec: product-adm's [CheckStockUseCase.execute] over
    its repository, neither among the sources.  Look up by identifier; if
    absent, fail "not found"; otherwise the identifier and the stock. *)
Definition CheckStockUseCase_execute (input_productId : string)
  (products : gmap string database.ProductRow) : Outcome Obj * gmap string database.ProductRow :=
match products !! input_productId with
| None => (Rejected (ErrorInstance "Product not found"), products)
| Some row =>
    (Resolved
       [ ("productId", JsString input_productId);
         ("stock", JsNumber (inject_Z (database.product_stock row))) ],
     products)
end.

(** Modelled from the spec: [ClientAdmFacade.find], not among the
    sources.  It delegates to its use case and propagates its result or
    failure unchanged. *)
Definition ClientAdmFacade_find : Call (gmap string database.ClientRow) string Obj :=
FindClientUseCase_execute.

(** Modelled from the spec: [ProductAdmFacade.checkStock], not among the
    sources.  It delegates to its use case. *)
Definition ProductAdmFacade_checkStock : Call (gmap string database.ProductRow) string Obj :=
CheckStockUseCase_execute.

End lookups.

(** ** payment: [routes/payment.routes.ts] and the payment domain *)

Module payment.

Definition processPaymentSchema : Joi.ObjectSchema :=
[ ("orderId", Joi.TString [] Joi.Required);
  ("amount", Joi.TNumber [Joi.Positive] Joi.Required) ].

Record ProcessPaymentFacadeInputDto : Type := mkInput
  { orderId : string; amount : Q }.

(** [const { orderId, amount } = req.body]. *)
Definition destructure (reqBody : Obj) : option ProcessPaymentFacadeInputDto :=
orderId ← asString (prop reqBody "orderId");
amount ← asNumber (prop reqBody "amount");
Some (mkInput orderId amount).

(** POST /api/payments, after validation. *)
Definition post {W : Type} (facade_process : Call W ProcessPaymentFacadeInputDto Obj)
  (input : ProcessPaymentFacadeInputDto) (w : W) : Response * W :=
match facade_process input w with
| (Resolved result, w') =>
    let statusCode :=
      if strictEqString (prop result "status") "approved" then 200 else 422 in
    (mkResponse statusCode result, w')
| (Rejected error, w') => (catchPlain error, w')
end.

(** *** The Transaction entity *)

(** Modelled from the spec: the status of a Transaction, one of pending,
    approved and declined; [domain/transaction] is not among the sources. *)
Inductive Status : Type :=
| pending
| approved
| declined.

(** The status as the string the rows and the responses carry. *)
Definition statusName (s : Status) : string :=
match s with
| pending => "pending"
| approved => "approved"
| declined => "declined"
end.

(** Modelled from the spec: the property set the constructor accepts, as
    the unit tests build it (identifier optional). *)
Record TransactionProps : Type := mkProps
  { props_id : option valueObject.Id; props_amount : Q;
    props_orderId : string; props_status : Status }.

(** Modelled from the spec: the Transaction entity, with the fields of
    its data model. *)
Record Transaction : Type := mkTransaction
  { id : valueObject.Id; t_amount : Q; t_orderId : string; status : Status;
    createdAt : Z; updatedAt : Z }.

(** What a request draws from its environment: the identifier the
    generator hands out and the clock. *)
Record Env : Type := mkEnv { uuid : string; now : Z }.

(** Modelled from the spec: the constructor of [domain/transaction], which
    is not among the sources (its unit tests are).  The amount must be
    greater than 0, or construction fails with a domain error carrying
    that reason; an entity without identifier gets a generated one. *)
Definition newTransaction (env : Env) (props : TransactionProps) : Thrown + Transaction :=
if Qle_bool (props_amount props) 0 then
  inl (ErrorInstance "Amount must be greater than 0")
else
  inr (mkTransaction
         (default (valueObject.mkId (uuid env)) (props_id props))
         (props_amount props) (props_orderId props) (props_status props)
         (now env) (now env)).

(** Modelled from the spec: [Transaction.approve], not among the sources. *)
Definition approve (t : Transaction) : Transaction :=
mkTransaction (id t) (t_amount t) (t_orderId t) approved (createdAt t) (updatedAt t).

(** Modelled from the spec: [Transaction.decline], not among the sources. *)
Definition decline (t : Transaction) : Transaction :=
mkTransaction (id t) (t_amount t) (t_orderId t) declined (createdAt t) (updatedAt t).

(** Modelled from the spec: [Transaction.process], not among the sources.
    If amount >= 100, approve; otherwise decline. *)
Definition process (t : Transaction) : Transaction :=
if Qle_bool 100 (t_amount t) then approve t else decline t.

(** The only moves of the status: away from [pending]. *)
Inductive forward : Status -> Status -> Prop :=
| forward_approve : forward pending approved
| forward_decline : forward pending declined.

(** *** Persistence *)

(** Modelled from the spec: the transactions table behind the
    repository, with the log of the writes made to it. *)
Record Transactions : Type := mkTransactions
  { rows : gmap string Transaction; writes : list Transaction }.

(** Modelled from the spec: [TransactionRepository.save], not among the
    sources.  An upsert by identifier. *)
Definition save (t : Transaction) (db : Transactions) : Transactions :=
mkTransactions (<[valueObject.id (id t) := t]> (rows db)) (writes db ++ [t]).

(** *** The use case and its facade *)

(** Modelled from the spec: [ProcessPaymentUseCase.execute], not among the
    sources.  Construct a Transaction in [pending] state, invoke its
    [process] operation, persist the final state, return the persisted
    projection including the final status. *)
Definition ProcessPaymentUseCase_execute (env : Env)
  (input : ProcessPaymentFacadeInputDto) (db : Transactions) : Outcome Obj * Transactions :=
match newTransaction env (mkProps None (amount input) (orderId input) pending) with
| inl e => (Rejected e, db)
| inr transaction =>
    let transaction := process transaction in
    let db := save transaction db in
    (Resolved
       [ ("transactionId", JsString (valueObject.id (id transaction)));
         ("orderId", JsString (t_orderId transaction));
         ("amount", JsNumber (t_amount transaction));
         ("status", JsString (statusName (status transaction)));
         ("createdAt", JsDate (createdAt transaction));
         ("updatedAt", JsDate (updatedAt transaction)) ],
     db)
end.

(** Modelled from the spec: [PaymentFacade.process], not among the
    sources.  It delegates to the use case and returns its result or
    propagates its failure unchanged. *)
Definition PaymentFacade_process (env : Env) : Call Transactions ProcessPaymentFacadeInputDto Obj :=
ProcessPaymentUseCase_execute env.

(** POST /api/payments as the router declares it: the validation stage,
    then the handler over the facade. *)
Definition route (coerceNumber : string -> Joi.Coercion) (isEmailValid : string -> bool)
  (env : Env) (reqBody : Obj) (db : Transactions) : option (Response * Transactions) :=
chain (validateBody coerceNumber isEmailValid processPaymentSchema)
  destructure (post (PaymentFacade_process env)) reqBody db.

End payment.

(** ** A runtime for the closed examples

    Theorems hold for every pair of recognisers.  The examples that run the
    validator need one: this one takes a string for a number when it is a
    plain run of decimal digits, and for an address when it contains
    an at sign. *)

Module examples.

Fixpoint digits (s : string) (acc : Z) : option Z :=
match s with
| EmptyString => Some acc
| String c rest =>
    let n := Z.of_nat (nat_of_ascii c) in
    if (48 <=? n) && (n <=? 57) then digits rest (10 * acc + (n - 48)) else None
end.

Definition coerceNumber (s : string) : Joi.Coercion :=
match s with
| EmptyString => Joi.NotNumeric
| _ =>
    match digits s 0 with
    | Some n => if Joi.unsafe (inject_Z n) then Joi.UnsafeNumeric (inject_Z n) else Joi.Numeric (inject_Z n)
    | None => Joi.NotNumeric
    end
end.

Definition isEmailValid (s : string) : bool := Str.includes s "@".

Definition env : payment.Env := payment.mkEnv "7f0c2a9e-5b1d-4c3a-9e77-0a1b2c3d4e5f" 1700000000000.

Definition noTransactions : payment.Transactions := payment.mkTransactions ∅ [].



(** A products table with one row, which has both prices. *)
Definition oneProduct : gmap string database.ProductRow :=
{[ "cat-prod-001" :=
     database.mkProductRow "Gaming Chair" "Ergonomic gaming chair"
       (Some (500 # 1)) (Some (8999 # 10)) 30 1700000000000 1700000000000 ]}.

(** A valid payment, and the same payment with a field the schema does
    not declare. *)
Definition validPayment : Obj :=
[ ("orderId", JsString "o1"); ("amount", JsNumber 150) ].

Definition paymentWithNote : Obj :=
[ ("orderId", JsString "o1"); ("amount", JsNumber 150); ("note", JsString "x") ].

End examples.

(** ** Vocabulary of the statements *)

Module Spec.

(** The three GET lookups: client by id, product stock by id, catalog
    product by id. *)
Definition lookupHandlers (W : Type) : list (Call W string Obj -> string -> W -> Response * W) :=
[ clientAdm.get; productAdm.getStock; storeCatalog.get ].

(** The field sets of the two product views. *)
Definition catalogFields : list string := [ "id"; "name"; "description"; "salesPrice" ].
Definition stockFields : list string := [ "productId"; "stock" ].

(** An element of a JSON array is an object with exactly these keys. *)
Definition hasFields (fields : list string) (v : JsValue) : Prop :=
exists o, v = JsObject o /\ keys o = fields.

Section Validation.

Variable coerceNumber : string -> Joi.Coercion.
Variable isEmailValid : string -> bool.

(** The number a value stands for once Joi has converted it, if any. *)
Definition numeric (v : JsValue) : option Q :=
match v with
| JsNumber n => Some n
| JsString s =>
    match coerceNumber s with
    | Joi.NotNumeric => None
    | Joi.Numeric n | Joi.UnsafeNumeric n => Some n
    end
| _ => None
end.

(** The details a declared field adds for the value the payload gives it. *)
Definition childErrors (reqBody : Obj) (child : string * Joi.Schema) : list Joi.Detail :=
(Joi.validateChild coerceNumber isEmailValid child.1 child.2 (prop reqBody child.1)).2.



(** [error.details], empty when there is no error. *)
Definition details (schema : Joi.ObjectSchema) (reqBody : Obj) : list Joi.Detail :=
default [] (Joi.validate coerceNumber isEmailValid schema reqBody).1.


(** "Unknown fields stripped": the payload is accepted and what is
    forwarded is the payload without the keys the schema does not declare. *)
Definition strippedAndForwarded (schema : Joi.ObjectSchema) (reqBody : Obj) : Prop :=
exists value,
  validateBody coerceNumber isEmailValid schema reqBody = Next value
  /\ keys value = filter (fun key => Joi.declares schema key = true) (keys reqBody).

End Validation.

End Spec.

(** ** The POST routes as the routers declare them

    [router.post('/', validateBody(schema), handler)], over any facade. *)

Module routes.

Section Routes.

Variable coerceNumber : string -> Joi.Coercion.
Variable isEmailValid : string -> bool.
Context {W : Type}.

(** POST /api/clients. *)
Definition clients (facade_add : Call W clientAdm.AddClientFacadeInputDto unit)
  (reqBody : Obj) (w : W) : option (Response * W) :=
chain (validateBody coerceNumber isEmailValid clientAdm.createClientSchema)
  clientAdm.destructure (clientAdm.post facade_add) reqBody w.

(** POST /api/products. *)
Definition products (facade_addProduct : Call W productAdm.AddProductFacadeInputDto unit)
  (reqBody : Obj) (w : W) : option (Response * W) :=
chain (validateBody coerceNumber isEmailValid productAdm.createProductSchema)
  productAdm.destructure (productAdm.post facade_addProduct) reqBody w.

(** POST /api/payments. *)
Definition payments (facade_process : Call W payment.ProcessPaymentFacadeInputDto Obj)
  (reqBody : Obj) (w : W) : option (Response * W) :=
chain (validateBody coerceNumber isEmailValid payment.processPaymentSchema)
  payment.destructure (payment.post facade_process) reqBody w.

End Routes.

End routes.

(** ** [main.ts]: start-up and shutdown

    The functions of [main.ts] act on the outside: the database handle,
    the HTTP listener, the logger and the process.  A run is the list of
    the effects it had, in order, and how it ended: it returned, it threw,
    or the process exited.  What the outside answers is an input: each
    awaited call of the handle resolves or rejects. *)

Module server.

Inductive Event : Type :=
| Authenticate
| Sync
| Close
| Listen (port : string)
| LogInfo (message : string)
| LogError (message : string) (error : Thrown).

Inductive End (A : Type) : Type :=
| Returned (a : A)
| Threw (error : Thrown)
| Exited (code : Z).
Global Arguments Returned {A} a.
Global Arguments Threw {A} error.
Global Arguments Exited {A} code.

Definition Run (A : Type) : Type := list Event * End A.

Definition ret {A : Type} (a : A) : Run A := ([], Returned a).

(** Sequencing: what follows runs only when what precedes returned. *)
Definition bind {A B : Type} (m : Run A) (k : A -> Run B) : Run B :=
match m with
| (events, Returned a) => let '(events', end') := k a in (events ++ events', end')
| (events, Threw error) => (events, Threw error)
| (events, Exited code) => (events, Exited code)
end.

(** [try { m } catch (error) { handler }]: an exit is not caught. *)
Definition tryCatch {A : Type} (m : Run A) (handler : Thrown -> Run A) : Run A :=
match m with
| (events, Threw error) =>
    let '(events', end') := handler error in (events ++ events', end')
| other => other
end.

(** An effect that cannot fail. *)
Definition emit (event : Event) : Run unit := ([event], Returned tt).

(** [await call]: the effect, then the call's outcome. *)
Definition await (event : Event) (outcome : Outcome unit) : Run unit :=
match outcome with
| Resolved _ => ([event], Returned tt)
| Rejected error => ([event], Threw error)
end.

(** [process.exit(code)]. *)
Definition exit {A : Type} (code : Z) : Run A := ([], Exited code).

Notation "m1 >> m2" := (bind m1 (fun _ => m2)) (at level 62, right associativity).

(** The database handle: what its three calls answer. *)
Record Sequelize : Type := mkSequelize
  { authenticate : Outcome unit; sync : Outcome unit; close : Outcome unit }.

(** [value || fallback] for an environment variable: unset and empty are
    both falsy. *)
Definition orElse (value : option string) (fallback : string) : string :=
match value with
| Some s => if String.eqb s "" then fallback else s
| None => fallback
end.

(** [const port = process.env.PORT || 3000], as it is printed. *)
Definition port (env : gmap string string) : string := orElse (env !! "PORT") "3000".

Definition connectDatabase (env : gmap string string) (sequelize : Sequelize) : Run unit :=
tryCatch
  (await Authenticate (authenticate sequelize) >>
   emit (LogInfo "Database connection established successfully") >>
   if decide (env !! "NODE_ENV" = Some "test") then ret tt
   else
     await Sync (sync sequelize) >>
     emit (LogInfo "Database synchronized"))
  (fun error =>
     emit (LogError "Unable to connect to database:" error) >>
     exit 1).

(** [startServer]; [listen] is what [app.listen] does when it is called:
    it returns, and its callback logs, or it throws. *)
Definition startServer (env : gmap string string) (sequelize : Sequelize)
  (listen : Outcome unit) : Run unit :=
tryCatch
  (connectDatabase env sequelize >>
   await (Listen (port env)) listen >>
   emit (LogInfo ("Server running on port " +:+ port env)) >>
   emit (LogInfo ("Environment: " +:+ orElse (env !! "NODE_ENV") "development")))
  (fun error =>
     emit (LogError "Failed to start server:" error) >>
     exit 1).

(** [process.on('SIGTERM', ...)]. *)
Definition onSIGTERM (sequelize : Sequelize) : Run unit :=
emit (LogInfo "SIGTERM received, shutting down gracefully") >>
await Close (close sequelize) >>
exit 0.

(** [process.on('SIGINT', ...)]. *)
Definition onSIGINT (sequelize : Sequelize) : Run unit :=
emit (LogInfo "SIGINT received, shutting down gracefully") >>
await Close (close sequelize) >>
exit 0.

(** [if (require.main === module) startServer()]. *)
Definition main (requireMain : bool) (env : gmap string string) (sequelize : Sequelize)
  (listen : Outcome unit) : Run unit :=
if requireMain then startServer env sequelize listen else ret tt.

(** [a] happens, and later [b], in a list of events. *)
Definition precedes (a b : Event) (events : list Event) : Prop :=
exists l1 l2 l3, events = l1 ++ a :: l2 ++ b :: l3.

End server.

(** ** [infrastructure/database/sequelize.config]: the connection options *)

Module sequelizeConfig.

(** [define: { timestamps, underscored, freezeTableName }]. *)
Record Define : Type := mkDefine
  { timestamps : bool; underscored : bool; freezeTableName : bool }.

(** [pool: { max, min, acquire, idle }]. *)
Record Pool : Type := mkPool { max : Z; min : Z; acquire : Z; idle : Z }.

(** The options object handed to [new Sequelize(...)]: one of the two
    literals of the file.  [logging] tells whether statements are
    printed ([false], or the function that prints them); a port is the
    number [parseInt] found, if it found one. *)
Inductive Options : Type :=
| Sqlite (storage : string) (logging : bool) (syncForce : bool) (models : list string)
| Postgres (host : string) (port : option Z) (database username password : string)
    (logging : bool) (define : Define) (pool : Pool) (models : list string).

Section Config.

(** [parseInt] and the joined path of the models stay abstract. *)
Variable parseInt : string -> option Z.
Variable modelsGlob : string.

Definition isProduction (env : gmap string string) : bool :=
bool_decide (env !! "NODE_ENV" = Some "production").

Definition isTest (env : gmap string string) : bool :=
bool_decide (env !! "NODE_ENV" = Some "test").

Definition sequelize (env : gmap string string) : Options :=
if isTest env then
  Sqlite ":memory:" false true [modelsGlob]
else
  Postgres
    (server.orElse (env !! "DB_HOST") "localhost")
    (parseInt (server.orElse (env !! "DB_PORT") "5432"))
    (server.orElse (env !! "DB_NAME") "monolith_db")
    (server.orElse (env !! "DB_USER") "monolith_user")
    (server.orElse (env !! "DB_PASSWORD") "monolith_pass")
    (if isProduction env then false else true)
    (mkDefine true true true)
    (mkPool 10 0 30000 10000)
    [modelsGlob].

End Config.

(** Whether the options print the statements. *)
Definition prints (o : Options) : bool :=
match o with
| Sqlite _ logging _ _ => logging
| Postgres _ _ _ _ _ logging _ _ _ => logging
end.

End sequelizeConfig.

(** ** [database/init/01-init.sql]: the bootstrap script

    The database as the script sees it: the extensions, the session's time
    zone, the three tables (absent until created) under their primary
    keys, and the indexes by name.  A statement that raises an error ends
    the script: the result is [None].  Existing tables are taken to have
    the columns the script declares. *)

Module initSql.

Record Client : Type := mkClient
  { name : string; email : string; address : string;
    created_at : option Z; updated_at : option Z }.

Record Product : Type := mkProduct
  { p_name : string; description : option string;
    purchase_price : option Q; sales_price : option Q; stock : option Z;
    p_created_at : option Z; p_updated_at : option Z }.

Record Transaction : Type := mkTransaction
  { order_id : string; amount : Q; status : option string;
    t_created_at : option Z; t_updated_at : option Z }.

Record Db : Type := mkDb
  { extensions : gset string;
    timezone : option string;
    clients : option (gmap string Client);
    products : option (gmap string Product);
    transactions : option (gmap string Transaction);
    indexes : gset string }.

(** [CREATE TABLE IF NOT EXISTS]: an existing table is left alone. *)
Definition createIfNotExists {Row : Type} (table : option (gmap string Row))
  : option (gmap string Row) :=
match table with
| Some rows => Some rows
| None => Some ∅
end.

(** A client with this e-mail is in the table. *)
Definition hasEmail (e : string) (rows : gmap string Client) : Prop :=
map_Exists (fun _ row => email row = e) rows.

(** One row of [INSERT INTO clients ... ON CONFLICT (email) DO NOTHING]:
    skipped when the e-mail is taken; an error when only the primary key
    is. *)
Definition insertClient (now : Z) (row : string * string * string * string)
  (rows : gmap string Client) : option (gmap string Client) :=
let '(id, name, email, address) := row in
if decide (hasEmail email rows) then Some rows
else
  match rows !! id with
  | Some _ => None
  | None => Some (<[id := mkClient name email address (Some now) (Some now)]> rows)
  end.

(** One row of [INSERT INTO products ... ON CONFLICT (id) DO NOTHING]. *)
Definition insertProduct (now : Z) (row : string * string * string * Q * Q * Z)
  (rows : gmap string Product) : gmap string Product :=
let '(id, name, description, purchase_price, sales_price, stock) := row in
match rows !! id with
| Some _ => rows
| None =>
    <[id := mkProduct name (Some description) (Some purchase_price) (Some sales_price)
              (Some stock) (Some now) (Some now)]> rows
end.

(** The rows of the statement, in order; each sees the rows before it. *)
Fixpoint insertClients (now : Z) (rows : list (string * string * string * string))
  (table : gmap string Client) : option (gmap string Client) :=
match rows with
| [] => Some table
| row :: rest =>
    match insertClient now row table with
    | Some table' => insertClients now rest table'
    | None => None
    end
end.

Definition insertProducts (now : Z) (rows : list (string * string * string * Q * Q * Z))
  (table : gmap string Product) : gmap string Product :=
fold_left (fun table row => insertProduct now row table) rows table.

Definition sampleClients : list (string * string * string * string) :=
[ ("550e8400-e29b-41d4-a716-446655440001", "John Doe", "john.doe@example.com",
   "123 Main St, Anytown, USA");
  ("550e8400-e29b-41d4-a716-446655440002", "Jane Smith", "jane.smith@example.com",
   "456 Oak Ave, Somewhere, USA") ].

Definition sampleProducts : list (string * string * string * Q * Q * Z) :=
[ ("660e8400-e29b-41d4-a716-446655440001", "Laptop Pro",
   "High-performance laptop for professionals", 800%Q, 1200%Q, 50%Z);
  ("660e8400-e29b-41d4-a716-446655440002", "Wireless Mouse",
   "Ergonomic wireless mouse with precision tracking", 25%Q, 45%Q, 200%Z);
  ("660e8400-e29b-41d4-a716-446655440003", "Mechanical Keyboard",
   "RGB backlit mechanical keyboard", 80%Q, 120%Q, 75%Z) ].

Definition indexNames : gset string :=
{[ "idx_clients_email"; "idx_products_name"; "idx_transactions_order_id";
   "idx_transactions_status" ]}.

(** The script, statement by statement; [now1] and [now2] are what
    [NOW()] gives in the two inserts. *)
Definition init (now1 now2 : Z) (db : Db) : option Db :=
let extensions := {[ "uuid-ossp" ]} ∪ extensions db in
let timezone := Some "UTC" in
clients ← createIfNotExists (clients db);
products ← createIfNotExists (products db);
transactions ← createIfNotExists (transactions db);
let indexes := indexNames ∪ indexes db in
clients ← insertClients now1 sampleClients clients;
let products := insertProducts now2 sampleProducts products in
Some (mkDb extensions timezone (Some clients) (Some products) (Some transactions) indexes).

(** A database on which nothing was created. *)
Definition empty : Db := mkDb ∅ None None None None ∅.

End initSql.

(** ** More vocabulary of the statements *)

Module Reads.

(** A child is required. *)
Definition required (child : Joi.Schema) : Prop :=
match child with
| Joi.TString _ presence | Joi.TNumber _ presence => presence = Joi.Required
end.


End Reads.

(** ** More sample data *)

Module samples.

(** A handle whose calls all succeed, and one that cannot connect. *)
Definition healthy : server.Sequelize :=
server.mkSequelize (Resolved tt) (Resolved tt) (Resolved tt).

Definition unreachable : server.Sequelize :=
server.mkSequelize (Rejected (ErrorInstance "connect ECONNREFUSED")) (Resolved tt) (Resolved tt).

Definition development : gmap string string := ∅.

Definition testing : gmap string string := {[ "NODE_ENV" := "test" ]}.

(** A client and a product as the route tests post them. *)
Definition client : Obj :=
[ ("name", JsString "Maria Silva"); ("email", JsString "maria@example.com");
  ("address", JsString "42 Flower Street") ].

Definition product : Obj :=
[ ("name", JsString "Pro Notebook"); ("description", JsString "High-performance laptop");
  ("purchasePrice", JsNumber 3500); ("stock", JsNumber 10) ].

(** Two catalog products, as the repository would return them. *)
Definition catalog : list storeCatalog.Product :=
[ storeCatalog.mkProduct (valueObject.mkId "cat-prod-001") "Gaming Chair"
    "Ergonomic gaming chair" (Some (8999 # 10));
  storeCatalog.mkProduct (valueObject.mkId "cat-prod-002") "L-Shaped Desk"
    "Wide corner desk" (Some 1200%Q) ].

End samples.

(** * Properties *)

(** ** Strings *)

Lemma append_nil (s : string) : "" +:+ s = s.
Proof. reflexivity. Qed.

Lemma append_cons (c : ascii) (a b : string) : String c a +:+ b = String c (a +:+ b).
Proof. reflexivity. Qed.

Lemma append_assoc (a b c : string) : (a +:+ b) +:+ c = a +:+ (b +:+ c).
Proof.
  induction a as [|x a IH]; [reflexivity|].
  rewrite !append_cons. f_equal. exact IH.
Qed.

Lemma prefix_app (needle s : string) :
  String.prefix needle s = true <-> exists post, s = needle +:+ post.
Proof.
  revert s. induction needle as [|a needle IH]; intros s.
  - destruct s; simpl; split; eauto.
  - destruct s as [|b s]; simpl.
    + split; [discriminate | intros [post H]; discriminate].
    + destruct (ascii_dec a b) as [->|Hne].
      * rewrite IH. split; intros [post H]; exists post;
          rewrite append_cons in *; congruence.
      * split; [discriminate | intros [post H]; rewrite append_cons in H; congruence].
Qed.

(** [includes] decides the occurrence of the needle. *)
Lemma includes_spec (s needle : string) :
  Str.includes s needle = true <-> Str.Substring needle s.
Proof.
  unfold Str.Substring. induction s as [|c s IH].
  - cbn [Str.includes]. destruct (String.prefix needle "") eqn:Hp.
    + apply prefix_app in Hp as [post Hp]. split; [|reflexivity].
      intros _. exists "", post. exact Hp.
    + split; [discriminate|]. intros (pre & post & H).
      destruct pre as [|c' pre].
      * assert (String.prefix needle "" = true) by (apply prefix_app; eauto).
        congruence.
      * rewrite append_cons in H. discriminate.
  - cbn [Str.includes]. destruct (String.prefix needle (String c s)) eqn:Hp.
    + apply prefix_app in Hp as [post Hp]. split; [|reflexivity].
      intros _. exists "", post. exact Hp.
    + rewrite IH. split.
      * intros (pre & post & ->). exists (String c pre), post. reflexivity.
      * intros (pre & post & H). destruct pre as [|c' pre].
        -- assert (String.prefix needle (String c s) = true)
             by (apply prefix_app; eauto).
           congruence.
        -- rewrite append_cons in H. injection H as _ ->. eauto.
Qed.

Lemma append_empty_r (s : string) : s +:+ "" = s.
Proof.
  induction s as [|c s IH]; [reflexivity|]. rewrite append_cons. now f_equal.
Qed.

Lemma substring_refl (s : string) : Str.Substring s s.
Proof. exists "", "". now rewrite append_nil, append_empty_r. Qed.

(** Every part of a joined string occurs in it. *)
Lemma join_includes (sep m : string) (parts : list string) :
  In m parts -> Str.Substring m (Str.join sep parts).
Proof.
  unfold Str.join. induction parts as [|x parts IH]; intros Hin; [easy|].
  destruct parts as [|y parts].
  - destruct Hin as [->|[]]. apply substring_refl.
  - change (String.concat sep (x :: y :: parts))
      with (x +:+ sep +:+ String.concat sep (y :: parts)).
    destruct Hin as [->|Hin].
    + exists "", (sep +:+ String.concat sep (y :: parts)). reflexivity.
    + destruct (IH Hin) as (pre & post & ->).
      exists (x +:+ sep +:+ pre), post.
      now rewrite !append_assoc.
Qed.

(** ** The transport layer: failures *)

Lemma catchLookup_status (e : Thrown) :
  statusCode (catchLookup e)
  = if Str.includes (Str.toLowerCase (messageOf e)) "not found" then 404 else 500.
Proof. reflexivity. Qed.

Lemma catchLookup_body (e : Thrown) : body (catchLookup e) = errorBody (messageOf e).
Proof. reflexivity. Qed.

(** A lookup handler whose facade call rejects answers with its catch
    clause. *)
Lemma lookup_rejected (W : Type) handler :
  In handler (Spec.lookupHandlers W) ->
  forall (facade : Call W string Obj) id w e w',
    facade id w = (Rejected e, w') -> handler facade id w = (catchLookup e, w').
Proof.
  intros Hin facade id w e w' Hcall.
  destruct Hin as [<-|[<-|[<-|[]]]];
    unfold clientAdm.get, productAdm.getStock, storeCatalog.get;
    now rewrite Hcall.
Qed.

(** C6.  A GET lookup (client by id, product stock by id, catalog product
    by id) whose facade call fails answers 404 exactly when the lowercased
    error message contains "not found", and 500 otherwise; a lookup of an
    identifier that was never created answers 404 with an error message
    containing "not found". *)
Theorem lookup_failure_status :
  (forall (W : Type) handler,
      In handler (Spec.lookupHandlers W) ->
      forall (facade : Call W string Obj) id w e w',
        facade id w = (Rejected e, w') ->
        exists res,
          handler facade id w = (res, w')
          /\ body res = errorBody (messageOf e)
          /\ (statusCode res = 404
              <-> Str.Substring "not found" (Str.toLowerCase (messageOf e)))
          /\ (statusCode res = 500
              <-> ~ Str.Substring "not found" (Str.toLowerCase (messageOf e))))
  /\ (forall id (clients : gmap string database.ClientRow),
        clients !! id = None ->
        exists message,
          clientAdm.get lookups.ClientAdmFacade_find id clients
          = (mkResponse 404 (errorBody message), clients)
          /\ Str.Substring "not found" message)
  /\ (forall id (products : gmap string database.ProductRow),
        products !! id = None ->
        exists message,
          productAdm.getStock lookups.ProductAdmFacade_checkStock id products
          = (mkResponse 404 (errorBody message), products)
          /\ Str.Substring "not found" message)
  /\ (forall id (products : gmap string database.ProductRow),
        products !! id = None ->
        exists message,
          storeCatalog.get
            (storeCatalog.StoreCatalogFacade_find storeCatalog.ProductRepository)
            id products
          = (mkResponse 404 (errorBody message), products)
          /\ Str.Substring "not found" message).
Proof.
  split; [|split; [|split]].
  - intros W handler Hin facade id w e w' Hcall.
    exists (catchLookup e). split; [now apply lookup_rejected|].
    split; [reflexivity|]. rewrite catchLookup_status, <- includes_spec.
    destruct (Str.includes _ _); split; first [easy | congruence | intros H; now destruct H].
  - intros id clients Hnone. exists "Client not found". split.
    + unfold clientAdm.get, lookups.ClientAdmFacade_find,
        lookups.FindClientUseCase_execute. now rewrite Hnone.
    + now exists "Client ", "".
  - intros id products Hnone. exists "Product not found". split.
    + unfold productAdm.getStock, lookups.ProductAdmFacade_checkStock,
        lookups.CheckStockUseCase_execute. now rewrite Hnone.
    + now exists "Product ", "".
  - intros id products Hnone. exists "Product not found". split.
    + unfold storeCatalog.get, storeCatalog.StoreCatalogFacade_find,
        storeCatalog.FindProductUseCase_execute, storeCatalog.ProductRepository.
      cbn. now rewrite Hnone.
    + now exists "Product ", "".
Qed.

(** The lookups of the theorem on a store without rows, and on a facade
    that fails with a message in capitals. *)
Lemma lookup_failure_status_witness :
  ((∅ : gmap string database.ClientRow) !! "nonexistent-id" = None
   /\ exists message,
       clientAdm.get lookups.ClientAdmFacade_find "nonexistent-id" ∅
       = (mkResponse 404 (errorBody message), ∅)
       /\ Str.Substring "not found" message)
  /\ exists res,
      clientAdm.get (fun (_ : string) (w : unit) =>
                       (Rejected (ErrorInstance "Client NOT FOUND"), w)) "c1" tt
      = (res, tt)
      /\ body res = errorBody "Client NOT FOUND"
      /\ (statusCode res = 404 <-> Str.Substring "not found" "client not found")
      /\ (statusCode res = 500 <-> ~ Str.Substring "not found" "client not found").
Proof.
  split.
  - split; [apply lookup_empty|].
    apply (proj1 (proj2 lookup_failure_status)). apply lookup_empty.
  - apply (proj1 lookup_failure_status unit clientAdm.get (or_introl eq_refl)
             (fun _ w => (Rejected (ErrorInstance "Client NOT FOUND"), w))
             "c1" tt (ErrorInstance "Client NOT FOUND") tt eq_refl).
Defined.

(** C7.  Whatever failure reaches a handler, the error field of the
    answer is the thrown error's own message when the thrown value is an
    Error, and the fixed "Internal server error" when it is anything else;
    the answer is a 500, except that a lookup answers 404 on "not found". *)
Theorem failure_body_is_message (e : Thrown) :
  let message :=
    match e with
    | ErrorInstance message => message
    | NonError _ => "Internal server error"
    end in
  (forall (W : Type) (facade : Call W clientAdm.AddClientFacadeInputDto unit) input w w',
      facade input w = (Rejected e, w') ->
      clientAdm.post facade input w = (mkResponse 500 [("error", JsString message)], w'))
  /\ (forall (W : Type) (facade : Call W productAdm.AddProductFacadeInputDto unit) input w w',
        facade input w = (Rejected e, w') ->
        productAdm.post facade input w
        = (mkResponse 500 [("error", JsString message)], w'))
  /\ (forall (W : Type) (facade : Call W payment.ProcessPaymentFacadeInputDto Obj) input w w',
        facade input w = (Rejected e, w') ->
        payment.post facade input w = (mkResponse 500 [("error", JsString message)], w'))
  /\ (forall (W : Type) (facade : W -> Outcome Obj * W) w w',
        facade w = (Rejected e, w') ->
        storeCatalog.getAll facade w = (mkResponse 500 [("error", JsString message)], w'))
  /\ (forall (W : Type) handler,
        In handler (Spec.lookupHandlers W) ->
        forall (facade : Call W string Obj) id w w',
          facade id w = (Rejected e, w') ->
          exists status,
            handler facade id w = (mkResponse status [("error", JsString message)], w')
            /\ (status = 500 \/ status = 404)).
Proof.
  cbn zeta. repeat split.
  - intros W facade input w w' H. unfold clientAdm.post. rewrite H. now destruct e.
  - intros W facade input w w' H. unfold productAdm.post. rewrite H. now destruct e.
  - intros W facade input w w' H. unfold payment.post. rewrite H. now destruct e.
  - intros W facade w w' H. unfold storeCatalog.getAll. rewrite H. now destruct e.
  - intros W handler Hin facade id w w' H.
    rewrite (lookup_rejected W handler Hin facade id w e w' H).
    exists (statusCode (catchLookup e)). split.
    + unfold catchLookup. now destruct e.
    + rewrite catchLookup_status. destruct (Str.includes _ _); auto.
Qed.

(** The theorem on a facade that fails with an Error, and on one that
    throws a plain string. *)
Lemma failure_body_is_message_witness :
  clientAdm.post
    (fun (_ : clientAdm.AddClientFacadeInputDto) (w : unit) =>
       (Rejected (ErrorInstance "DB connection failed"), w))
    (clientAdm.mkAddClientInput None "Test" "test@example.com" "Street 1") tt
  = (mkResponse 500 [("error", JsString "DB connection failed")], tt)
  /\ clientAdm.post
       (fun (_ : clientAdm.AddClientFacadeInputDto) (w : unit) =>
          (Rejected (NonError (JsString "unexpected string error")), w))
       (clientAdm.mkAddClientInput None "Test" "test@example.com" "Street 1") tt
     = (mkResponse 500 [("error", JsString "Internal server error")], tt).
Proof.
  split.
  - apply (proj1 (failure_body_is_message (ErrorInstance "DB connection failed"))
             unit (fun _ w => (Rejected (ErrorInstance "DB connection failed"), w))
             _ tt tt eq_refl).
  - apply (proj1 (failure_body_is_message (NonError (JsString "unexpected string error")))
             unit
             (fun _ w => (Rejected (NonError (JsString "unexpected string error")), w))
             _ tt tt eq_refl).
Defined.

(** C10.  The "not found" convention belongs to the GET lookups only: a
    failure thrown by the facade of a POST endpoint (add client, add
    product, process payment) is answered 500, never 404, also when its
    message contains "not found", where a lookup would answer 404. *)
Theorem post_failure_is_500 (e : Thrown) :
  (forall (W : Type) (facade : Call W clientAdm.AddClientFacadeInputDto unit) input w w',
      facade input w = (Rejected e, w') ->
      statusCode (clientAdm.post facade input w).1 = 500)
  /\ (forall (W : Type) (facade : Call W productAdm.AddProductFacadeInputDto unit) input w w',
        facade input w = (Rejected e, w') ->
        statusCode (productAdm.post facade input w).1 = 500)
  /\ (forall (W : Type) (facade : Call W payment.ProcessPaymentFacadeInputDto Obj) input w w',
        facade input w = (Rejected e, w') ->
        statusCode (payment.post facade input w).1 = 500)
  /\ (Str.Substring "not found" (Str.toLowerCase (messageOf e)) ->
      statusCode (catchPlain e) = 500 /\ statusCode (catchLookup e) = 404).
Proof.
  repeat split.
  - intros W facade input w w' H. unfold clientAdm.post. now rewrite H.
  - intros W facade input w w' H. unfold productAdm.post. now rewrite H.
  - intros W facade input w w' H. unfold payment.post. now rewrite H.
  - rewrite catchLookup_status. apply includes_spec in H. now rewrite H.
Qed.

(** The theorem on a payment whose facade fails with "Order not found". *)
Lemma post_failure_is_500_witness :
  statusCode
    (payment.post
       (fun (_ : payment.ProcessPaymentFacadeInputDto) (w : unit) =>
          (Rejected (ErrorInstance "Order not found"), w))
       (payment.mkInput "o1" 150) tt).1
  = 500
  /\ statusCode (catchLookup (ErrorInstance "Order not found")) = 404.
Proof.
  split.
  - apply (proj1 (proj2 (proj2 (post_failure_is_500 (ErrorInstance "Order not found"))))
             unit (fun _ w => (Rejected (ErrorInstance "Order not found"), w))
             _ tt tt eq_refl).
  - apply (proj2 (proj2 (proj2 (post_failure_is_500 (ErrorInstance "Order not found"))))).
    apply includes_spec. reflexivity.
Defined.

(** ** The payment domain *)

Lemma Qle_bool_false (x y : Q) : (y < x)%Q -> Qle_bool x y = false.
Proof.
  intros H. destruct (Qle_bool x y) eqn:E; [|reflexivity].
  apply Qle_bool_iff in E. exfalso. exact (Qlt_not_le _ _ H E).
Qed.

Lemma Qle_bool_true (x y : Q) : (x <= y)%Q -> Qle_bool x y = true.
Proof. apply Qle_bool_iff. Qed.

Lemma strictEqString_spec (v : JsValue) (s : string) :
  strictEqString v s = true <-> v = JsString s.
Proof.
  destruct v; simpl; try (split; [discriminate | congruence]).
  rewrite String.eqb_eq. split; congruence.
Qed.

(** Construction succeeds on a positive amount and keeps the properties
    it was given. *)
Lemma newTransaction_positive (env : payment.Env) (props : payment.TransactionProps) :
  (0 < payment.props_amount props)%Q ->
  payment.newTransaction env props
  = inr (payment.mkTransaction
           (default (valueObject.mkId (payment.uuid env)) (payment.props_id props))
           (payment.props_amount props) (payment.props_orderId props)
           (payment.props_status props) (payment.now env) (payment.now env)).
Proof. intros H. unfold payment.newTransaction. now rewrite Qle_bool_false. Qed.

Lemma newTransaction_nonpositive (env : payment.Env) (props : payment.TransactionProps) :
  (payment.props_amount props <= 0)%Q ->
  payment.newTransaction env props = inl (ErrorInstance "Amount must be greater than 0").
Proof. intros H. unfold payment.newTransaction. now rewrite Qle_bool_true. Qed.

Lemma process_status (t : payment.Transaction) :
  payment.status (payment.process t)
  = if Qle_bool 100 (payment.t_amount t) then payment.approved else payment.declined.
Proof. unfold payment.process. now destruct (Qle_bool _ _). Qed.

(** [process] changes the status and nothing else. *)
Lemma process_keeps (t : payment.Transaction) :
  payment.id (payment.process t) = payment.id t
  /\ payment.t_amount (payment.process t) = payment.t_amount t
  /\ payment.t_orderId (payment.process t) = payment.t_orderId t.
Proof. unfold payment.process. now destruct (Qle_bool _ _). Qed.

(** With an amount that is not above 0 the use case fails at construction
    and leaves the store as it was. *)
Lemma execute_nonpositive (env : payment.Env) (input : payment.ProcessPaymentFacadeInputDto)
  (db : payment.Transactions) :
  (payment.amount input <= 0)%Q ->
  payment.ProcessPaymentUseCase_execute env input db
  = (Rejected (ErrorInstance "Amount must be greater than 0"), db).
Proof.
  intros H. unfold payment.ProcessPaymentUseCase_execute.
  now rewrite newTransaction_nonpositive.
Qed.

(** C2.  Constructing a Transaction with an amount that is not greater
    than 0 fails with the domain error "Amount must be greater than 0";
    with every amount greater than 0 it succeeds; and the failure comes at
    construction, before any persistence: the use case leaves the store as
    it was. *)
Theorem transaction_amount_positive (env : payment.Env) :
  (forall props,
      (payment.props_amount props <= 0)%Q ->
      payment.newTransaction env props
      = inl (ErrorInstance "Amount must be greater than 0"))
  /\ (forall props,
        (0 < payment.props_amount props)%Q ->
        exists t,
          payment.newTransaction env props = inr t
          /\ payment.t_amount t = payment.props_amount props
          /\ payment.status t = payment.props_status props)
  /\ (forall input db,
        (payment.amount input <= 0)%Q ->
        payment.ProcessPaymentUseCase_execute env input db
        = (Rejected (ErrorInstance "Amount must be greater than 0"), db)).
Proof.
  split; [|split].
  - intros props H. now apply newTransaction_nonpositive.
  - intros props H. eexists. split; [now apply newTransaction_positive|]. easy.
  - intros input db H. now apply execute_nonpositive.
Qed.

(** The amounts of the unit tests: -10 and 0 fail, 100 succeeds. *)
Lemma transaction_amount_positive_witness :
  payment.newTransaction examples.env (payment.mkProps None (-10) "order-123" payment.pending)
  = inl (ErrorInstance "Amount must be greater than 0")
  /\ payment.newTransaction examples.env (payment.mkProps None 0 "order-123" payment.pending)
     = inl (ErrorInstance "Amount must be greater than 0")
  /\ (exists t,
         payment.newTransaction examples.env
           (payment.mkProps None 100 "order-123" payment.pending) = inr t
         /\ payment.t_amount t = 100%Q
         /\ payment.status t = payment.pending)
  /\ payment.ProcessPaymentUseCase_execute examples.env (payment.mkInput "order-123" 0)
       examples.noTransactions
     = (Rejected (ErrorInstance "Amount must be greater than 0"), examples.noTransactions).
Proof.
  repeat apply conj.
  - apply (proj1 (transaction_amount_positive examples.env)). discriminate.
  - apply (proj1 (transaction_amount_positive examples.env)). discriminate.
  - apply (proj1 (proj2 (transaction_amount_positive examples.env))
             (payment.mkProps None 100 "order-123" payment.pending)).
    reflexivity.
  - apply (proj2 (proj2 (transaction_amount_positive examples.env))). discriminate.
Defined.

(** What the use case does with a positive amount: one construction, the
    decision, one write of the decided entity, and its projection. *)
Lemma execute_positive (env : payment.Env) (input : payment.ProcessPaymentFacadeInputDto)
  (db : payment.Transactions) :
  (0 < payment.amount input)%Q ->
  let t0 :=
    payment.mkTransaction (valueObject.mkId (payment.uuid env)) (payment.amount input)
      (payment.orderId input) payment.pending (payment.now env) (payment.now env) in
  let t := payment.process t0 in
  payment.newTransaction env
    (payment.mkProps None (payment.amount input) (payment.orderId input) payment.pending)
  = inr t0
  /\ payment.ProcessPaymentUseCase_execute env input db
     = (Resolved
          [ ("transactionId", JsString (payment.uuid env));
            ("orderId", JsString (payment.orderId input));
            ("amount", JsNumber (payment.amount input));
            ("status", JsString (payment.statusName (payment.status t)));
            ("createdAt", JsDate (payment.now env));
            ("updatedAt", JsDate (payment.now env)) ],
        payment.save t db).
Proof.
  intros Hpos t0 t.
  assert (Hnew : payment.newTransaction env
                   (payment.mkProps None (payment.amount input) (payment.orderId input)
                      payment.pending) = inr t0)
    by now rewrite newTransaction_positive.
  split; [exact Hnew|].
  unfold payment.ProcessPaymentUseCase_execute. rewrite Hnew.
  subst t. unfold payment.process, t0. cbn.
  now destruct (Qle_bool 100 (payment.amount input)).
Qed.

(** C1.  For a payment whose validated amount is greater than 0:
    [process] sets the status to approved when the amount is at least 100
    (100 included) and to declined when it is below 100; the POST handler
    answers 200 when the status of the facade's result is 'approved' and
    422 otherwise, the result being the body; and over the payment facade
    the answer is 200 with status approved, or 422 with status declined,
    accordingly. *)
Theorem payment_threshold (env : payment.Env)
  (input : payment.ProcessPaymentFacadeInputDto) (db : payment.Transactions) :
  (0 < payment.amount input)%Q ->
  (exists t,
      payment.newTransaction env
        (payment.mkProps None (payment.amount input) (payment.orderId input)
           payment.pending) = inr t
      /\ ((100 <= payment.amount input)%Q ->
          payment.status (payment.process t) = payment.approved)
      /\ ((payment.amount input < 100)%Q ->
          payment.status (payment.process t) = payment.declined))
  /\ (forall (W : Type) (facade : Call W payment.ProcessPaymentFacadeInputDto Obj)
        w result w',
        facade input w = (Resolved result, w') ->
        exists statusCode,
          payment.post facade input w = (mkResponse statusCode result, w')
          /\ (prop result "status" = JsString "approved" -> statusCode = 200)
          /\ (prop result "status" <> JsString "approved" -> statusCode = 422))
  /\ (exists res db',
         payment.post (payment.PaymentFacade_process env) input db = (res, db')
         /\ ((100 <= payment.amount input)%Q ->
             statusCode res = 200 /\ prop (body res) "status" = JsString "approved")
         /\ ((payment.amount input < 100)%Q ->
             statusCode res = 422 /\ prop (body res) "status" = JsString "declined")).
Proof.
  intros Hpos. destruct (execute_positive env input db Hpos) as [Hnew Hexec].
  split; [|split].
  - eexists. split; [exact Hnew|]. rewrite process_status. cbn. split; intros H.
    + now rewrite Qle_bool_true.
    + now rewrite Qle_bool_false.
  - intros W facade w result w' Hcall. unfold payment.post. rewrite Hcall.
    eexists. split; [reflexivity|].
    destruct (strictEqString (prop result "status") "approved") eqn:E.
    + split; [reflexivity|]. intros Hne. apply strictEqString_spec in E. contradiction.
    + split; [|reflexivity]. intros Heq. apply strictEqString_spec in Heq. congruence.
  - unfold payment.post, payment.PaymentFacade_process. rewrite Hexec.
    rewrite process_status. cbn [payment.t_amount].
    eexists _, _. split; [reflexivity|]. split; intros H.
    + rewrite (Qle_bool_true _ _ H). now cbn.
    + rewrite (Qle_bool_false _ _ H). now cbn.
Qed.

(** The boundary: 100 is approved and answered 200. *)
Lemma payment_threshold_witness :
  (0 < payment.amount (payment.mkInput "order-100" 100))%Q
  /\ exists res db',
      payment.post (payment.PaymentFacade_process examples.env)
        (payment.mkInput "order-100" 100) examples.noTransactions = (res, db')
      /\ ((100 <= 100)%Q ->
          statusCode res = 200 /\ prop (body res) "status" = JsString "approved")
      /\ ((100 < 100)%Q ->
          statusCode res = 422 /\ prop (body res) "status" = JsString "declined").
Proof.
  split; [reflexivity|].
  apply (proj2 (proj2 (payment_threshold examples.env (payment.mkInput "order-100" 100)
                         examples.noTransactions eq_refl))).
Defined.

Lemma forward_process (t : payment.Transaction) :
  payment.status t = payment.pending ->
  payment.forward (payment.status t) (payment.status (payment.process t)).
Proof.
  intros ->. rewrite process_status. destruct (Qle_bool _ _); constructor.
Qed.

Lemma process_not_pending (t : payment.Transaction) :
  payment.status (payment.process t) <> payment.pending.
Proof. rewrite process_status. now destruct (Qle_bool _ _). Qed.

(** C5.  The use case writes to the store at most once per request, and
    never a pending row; with a positive amount it constructs the
    Transaction in pending state, moves it forward in memory (pending to
    approved or pending to declined) and only then persists it, exactly
    once, as the row found under its identifier; with any other amount
    construction fails and nothing is written. *)
Theorem process_payment_persists_once (env : payment.Env)
  (input : payment.ProcessPaymentFacadeInputDto) (db : payment.Transactions) :
  exists outcome db',
    payment.ProcessPaymentUseCase_execute env input db = (outcome, db')
    /\ (exists written,
           payment.writes db' = payment.writes db ++ written
           /\ (length written <= 1)%nat
           /\ Forall (fun row => payment.status row <> payment.pending) written)
    /\ ((0 < payment.amount input)%Q ->
        exists t,
          payment.newTransaction env
            (payment.mkProps None (payment.amount input) (payment.orderId input)
               payment.pending) = inr t
          /\ payment.status t = payment.pending
          /\ payment.forward (payment.status t) (payment.status (payment.process t))
          /\ db' = payment.save (payment.process t) db
          /\ payment.writes db' = payment.writes db ++ [payment.process t]
          /\ payment.rows db' !! valueObject.id (payment.id t) = Some (payment.process t)
          /\ exists result,
              outcome = Resolved result
              /\ prop result "status"
                 = JsString (payment.statusName (payment.status (payment.process t))))
    /\ ((payment.amount input <= 0)%Q ->
        db' = db /\ exists e, outcome = Rejected e).
Proof.
  destruct (Qlt_le_dec 0 (payment.amount input)) as [Hpos|Hle].
  - destruct (execute_positive env input db Hpos) as [Hnew Hexec].
    eexists _, _. split; [exact Hexec|]. split; [|split].
    + eexists [_]. split; [reflexivity|]. split; [reflexivity|].
      constructor; [apply process_not_pending | constructor].
    + intros _. eexists. split; [exact Hnew|].
      split; [reflexivity|]. split; [now apply forward_process|].
      split; [reflexivity|]. split; [reflexivity|]. split.
      * cbn [payment.save payment.rows].
        destruct (process_keeps
                    (payment.mkTransaction (valueObject.mkId (payment.uuid env))
                       (payment.amount input) (payment.orderId input) payment.pending
                       (payment.now env) (payment.now env))) as (-> & _).
        apply lookup_insert_eq.
      * eexists. split; reflexivity.
    + intros Hle. exfalso. exact (Qlt_not_le _ _ Hpos Hle).
  - eexists _, _. split; [apply execute_nonpositive, Hle|]. split; [|split].
    + exists []. split; [now rewrite app_nil_r|]. split; [cbn; lia | constructor].
    + intros Hpos. exfalso. exact (Qlt_not_le _ _ Hpos Hle).
    + intros _. split; [reflexivity | eauto].
Qed.

(** The use case on an amount of 75 and an empty table: one declined row. *)
Lemma process_payment_persists_once_witness :
  exists outcome db',
    payment.ProcessPaymentUseCase_execute examples.env
      (payment.mkInput "order-persist-fail" 75) examples.noTransactions = (outcome, db')
    /\ length (payment.writes db') = 1%nat
    /\ Forall (fun row => payment.status row = payment.declined) (payment.writes db').
Proof.
  destruct (process_payment_persists_once examples.env
              (payment.mkInput "order-persist-fail" 75) examples.noTransactions)
    as (outcome & db' & Hexec & _ & Hpos & _).
  exists outcome, db'. split; [exact Hexec|].
  destruct (Hpos eq_refl) as (t & Hnew & _ & _ & _ & Hwrites & _).
  rewrite Hwrites. split; [reflexivity|].
  injection Hnew as <-. repeat constructor.
Defined.

(** ** The validation stage *)

Lemma own_setOwn_eq (o : Obj) (k : string) (v : JsValue) : own (Joi.setOwn o k v) k = Some v.
Proof.
  induction o as [|[k' v'] o IH]; cbn.
  - now rewrite String.eqb_refl.
  - destruct (String.eqb k' k) eqn:E; cbn; now rewrite E.
Qed.

Lemma own_setOwn_ne (o : Obj) (k k' : string) (v : JsValue) :
  k <> k' -> own (Joi.setOwn o k v) k' = own o k'.
Proof.
  intros Hne. induction o as [|[k0 v0] o IH]; cbn.
  - now apply String.eqb_neq in Hne as ->.
  - destruct (String.eqb k0 k) eqn:E; cbn.
    + apply String.eqb_eq in E as ->. now apply String.eqb_neq in Hne as ->.
    + now rewrite IH.
Qed.

Lemma prop_setOwn_eq (o : Obj) (k : string) (v : JsValue) : prop (Joi.setOwn o k v) k = v.
Proof. unfold prop. now rewrite own_setOwn_eq. Qed.

Lemma prop_setOwn_ne (o : Obj) (k k' : string) (v : JsValue) :
  k <> k' -> prop (Joi.setOwn o k v) k' = prop o k'.
Proof. intros Hne. unfold prop. now rewrite own_setOwn_ne. Qed.

(** Assigning to a property the object has keeps its keys. *)
Lemma keys_setOwn (o : Obj) (k : string) (v : JsValue) :
  own o k <> None -> keys (Joi.setOwn o k v) = keys o.
Proof.
  induction o as [|[k' v'] o IH]; cbn; [congruence|].
  destruct (String.eqb k' k); cbn; [reflexivity|].
  intros H. unfold keys in IH. now rewrite IH.
Qed.

Lemma declares_In (schema : Joi.ObjectSchema) (k : string) :
  Joi.declares schema k = true <-> In k (map fst schema).
Proof.
  unfold Joi.declares. rewrite existsb_exists. split.
  - intros (x & Hin & Heq). now apply String.eqb_eq in Heq as ->.
  - intros Hin. exists k. split; [exact Hin | apply String.eqb_refl].
Qed.

Section ValidationFacts.

Variable coerceNumber : string -> Joi.Coercion.
Variable isEmailValid : string -> bool.

Local Abbreviation validateChild := (Joi.validateChild coerceNumber isEmailValid).
Local Abbreviation validateKeys := (Joi.validateKeys coerceNumber isEmailValid).
Local Abbreviation validate := (Joi.validate coerceNumber isEmailValid).
Local Abbreviation childErrors := (Spec.childErrors coerceNumber isEmailValid).
Local Abbreviation details := (Spec.details coerceNumber isEmailValid).
Local Abbreviation stage := (validateBody coerceNumber isEmailValid).

(** A child results in [undefined] exactly when it is given [undefined]. *)
Lemma validateChild_undefined (key : string) (child : Joi.Schema) (item : JsValue) :
  (validateChild key child item).1 = JsUndefined <-> item = JsUndefined.
Proof.
  split; [|now intros ->; destruct child].
  destruct child as [rules p|rules p]; destruct item; cbn; try congruence.
  - now destruct (String.eqb s "").
  - unfold Joi.checkNumber. now destruct (Joi.unsafe n).
  - unfold Joi.checkNumber.
    destruct (coerceNumber s) as [|n|n]; cbn; try congruence; now destruct (Joi.unsafe n).
Qed.


(** The loop leaves alone the properties it has no child for. *)
Lemma validateKeys_other (children : Joi.ObjectSchema) (value : Obj) (k : string) :
  ~ In k (map fst children) -> prop (validateKeys children value).1 k = prop value k.
Proof.
  revert value. induction children as [|[key child] rest IH]; intros value Hk; [reflexivity|].
  cbn in Hk. cbn [Joi.validateKeys].
  destruct (validateChild key child (prop value key)) as [result errors].
  set (value' := match result with JsUndefined => value | _ => Joi.setOwn value key result end).
  specialize (IH value' (fun H => Hk (or_intror H))).
  destruct (validateKeys rest value') as [value'' errors']. cbn in *.
  rewrite IH. subst value'.
  destruct result; try reflexivity; apply prop_setOwn_ne; intros ->; apply Hk; now left.
Qed.

(** The errors of the loop: those of each child on the value the payload
    gives it, in schema order. *)
Lemma validateKeys_errors (children : Joi.ObjectSchema) (value reqBody : Obj) :
  NoDup (map fst children) ->
  (forall k, In k (map fst children) -> prop value k = prop reqBody k) ->
  (validateKeys children value).2 = flat_map (childErrors reqBody) children.
Proof.
  revert value. induction children as [|[key child] rest IH]; intros value Hnd Hsame;
    [reflexivity|].
  cbn in Hnd. apply NoDup_cons in Hnd as [Hnotin Hnd].
  cbn [Joi.validateKeys flat_map]. unfold Spec.childErrors at 1. cbn [fst snd].
  rewrite <- (Hsame key (or_introl eq_refl)).
  destruct (validateChild key child (prop value key)) as [result errors].
  set (value' := match result with JsUndefined => value | _ => Joi.setOwn value key result end).
  assert (Hsame' : forall k, In k (map fst rest) -> prop value' k = prop reqBody k).
  { intros k Hin. rewrite <- (Hsame k (or_intror Hin)). subst value'.
    assert (key <> k) by (intros ->; apply Hnotin; now apply list_elem_of_In).
    destruct result; try reflexivity; now apply prop_setOwn_ne. }
  specialize (IH value' Hnd Hsame').
  destruct (validateKeys rest value') as [value'' errors']. cbn in *. now rewrite IH.
Qed.

(** The value of the loop at a declared key: the child's resulting value. *)
Lemma validateKeys_prop (children : Joi.ObjectSchema) (value : Obj) (key : string)
  (child : Joi.Schema) :
  NoDup (map fst children) -> In (key, child) children ->
  prop (validateKeys children value).1 key = (validateChild key child (prop value key)).1.
Proof.
  revert value. induction children as [|[k c] rest IH]; intros value Hnd Hin; [easy|].
  cbn in Hnd. apply NoDup_cons in Hnd as [Hnotin Hnd].
  rewrite list_elem_of_In in Hnotin.
  destruct Hin as [Heq|Hin].
  - injection Heq as Hk Hc. subst k c.
    pose proof (validateKeys_other rest) as Hother.
    pose proof (validateChild_undefined key child (prop value key)) as Hundef.
    cbn [Joi.validateKeys].
    destruct (validateChild key child (prop value key)) as [result errors].
    set (value' := match result with JsUndefined => value | _ => Joi.setOwn value key result end).
    specialize (Hother value' key Hnotin).
    destruct (validateKeys rest value') as [value'' errors']. cbn in *.
    rewrite Hother. subst value'.
    destruct result; try apply prop_setOwn_eq.
    now apply Hundef.
  - assert (Hne : k <> key).
    { intros ->. apply Hnotin. apply in_map_iff. now exists (key, child). }
    cbn [Joi.validateKeys].
    destruct (validateChild k c (prop value k)) as [result errors].
    set (value' := match result with JsUndefined => value | _ => Joi.setOwn value k result end).
    specialize (IH value' Hnd Hin).
    destruct (validateKeys rest value') as [value'' errors']. cbn in *.
    rewrite IH. f_equal. f_equal. subst value'.
    destruct result; try reflexivity; now apply prop_setOwn_ne.
Qed.


(** The loop assigns only to properties the object has: the keys stay. *)
Lemma validateKeys_keys (children : Joi.ObjectSchema) (value : Obj) :
  keys (validateKeys children value).1 = keys value.
Proof.
  revert value. induction children as [|[key child] rest IH]; intros value; [reflexivity|].
  pose proof (validateChild_undefined key child (prop value key)) as Hundef.
  cbn [Joi.validateKeys].
  destruct (validateChild key child (prop value key)) as [result errors].
  set (value' := match result with JsUndefined => value | _ => Joi.setOwn value key result end).
  specialize (IH value').
  destruct (validateKeys rest value') as [value'' errors']. cbn in *.
  rewrite IH. subst value'.
  assert (Hown : result <> JsUndefined -> own value key <> None).
  { intros Hres Hnone. apply Hres, Hundef. unfold prop. now rewrite Hnone. }
  destruct result; try reflexivity; apply keys_setOwn, Hown; discriminate.
Qed.

(** [error.details]: the errors of the children, then the unknown keys. *)
Lemma details_app (schema : Joi.ObjectSchema) (reqBody : Obj) :
  details schema reqBody
  = (validateKeys schema reqBody).2 ++ Joi.unknownKeys schema reqBody.
Proof.
  unfold Spec.details, Joi.validate.
  destruct (validateKeys schema reqBody) as [value errors]. cbn.
  now destruct (errors ++ Joi.unknownKeys schema reqBody).
Qed.

Lemma details_eq (schema : Joi.ObjectSchema) (reqBody : Obj) :
  NoDup (map fst schema) ->
  details schema reqBody
  = flat_map (childErrors reqBody) schema ++ Joi.unknownKeys schema reqBody.
Proof.
  intros Hnd. rewrite details_app. f_equal. now apply validateKeys_errors.
Qed.

(** Joi's answer in terms of the details. *)
Lemma validate_cases (schema : Joi.ObjectSchema) (reqBody : Obj) :
  validate schema reqBody
  = (match details schema reqBody with [] => None | ds => Some ds end,
     (validateKeys schema reqBody).1).
Proof.
  unfold Spec.details, Joi.validate.
  destruct (validateKeys schema reqBody) as [value errors]. cbn.
  now destruct (errors ++ Joi.unknownKeys schema reqBody).
Qed.

(** The middleware in terms of the details. *)
Lemma validateBody_cases (schema : Joi.ObjectSchema) (reqBody : Obj) :
  stage schema reqBody
  = match details schema reqBody with
    | [] => Next (validateKeys schema reqBody).1
    | ds => Responded (mkResponse 400 (errorBody (Str.join "; " (map Joi.message ds))))
    end.
Proof.
  unfold validateBody. rewrite validate_cases.
  now destruct (details schema reqBody).
Qed.

(** A payload with a detail is answered 400, and the message of the
    detail is part of the answer. *)
Lemma detail_reported (schema : Joi.ObjectSchema) (reqBody : Obj) (d : Joi.Detail) :
  In d (details schema reqBody) ->
  exists message,
    stage schema reqBody = Responded (mkResponse 400 (errorBody message))
    /\ Str.Substring (Joi.message d) message.
Proof.
  intros Hin. rewrite validateBody_cases.
  destruct (details schema reqBody) as [|d0 ds] eqn:E; [easy|].
  eexists. split; [reflexivity|]. apply join_includes. now apply in_map.
Qed.

(** What passes a required string without rules. *)
Lemma required_string_ok (key : string) (item : JsValue) :
  (validateChild key (Joi.TString [] Joi.Required) item).2 = [] ->
  exists s, item = JsString s /\ (validateChild key (Joi.TString [] Joi.Required) item).1 = JsString s.
Proof.
  destruct item; cbn; try discriminate.
  destruct (String.eqb s ""); cbn; [discriminate|]. eauto.
Qed.

(** What passes a required positive number: a number above 0, given as
    such or as a string Joi converts. *)
Lemma required_positive_ok (key : string) (item : JsValue) :
  (validateChild key (Joi.TNumber [Joi.Positive] Joi.Required) item).2 = [] ->
  exists n,
    (validateChild key (Joi.TNumber [Joi.Positive] Joi.Required) item).1 = JsNumber n
    /\ Spec.numeric coerceNumber item = Some n
    /\ (0 < n)%Q.
Proof.
  assert (Hcheck : forall n,
             (Joi.checkNumber key [Joi.Positive] n).2 = [] ->
             (Joi.checkNumber key [Joi.Positive] n).1 = JsNumber n /\ (0 < n)%Q).
  { intros n. unfold Joi.checkNumber. destruct (Joi.unsafe n); cbn; [discriminate|].
    destruct (Qle_bool n 0) eqn:E; cbn; [discriminate|]. intros _. split; [reflexivity|].
    destruct (Qlt_le_dec 0 n) as [H|H]; [exact H|].
    apply Qle_bool_iff in H. congruence. }
  destruct item; cbn; try discriminate.
  - intros H. exists n. destruct (Hcheck n H) as [-> ?]. auto.
  - destruct (coerceNumber s) as [|n|n]; cbn; try discriminate.
    intros H. exists n. destruct (Hcheck n H) as [-> ?]. auto.
Qed.

(** What a required positive number rejects: whatever is not a number,
    and the numbers that are not above 0. *)
Lemma required_positive_rejects (key : string) (item : JsValue) :
  Spec.numeric coerceNumber item = None
  \/ (exists n, Spec.numeric coerceNumber item = Some n /\ (n <= 0)%Q) ->
  (validateChild key (Joi.TNumber [Joi.Positive] Joi.Required) item).2 <> [].
Proof.
  intros Hbad Hok. apply required_positive_ok in Hok as (n & _ & Hnum & Hpos).
  destruct Hbad as [Hnone|(m & Hm & Hle)]; [congruence|].
  assert (m = n) by congruence. subst m. exact (Qlt_not_le _ _ Hpos Hle).
Qed.

Lemma required_string_rejects (key : string) (item : JsValue) :
  asString item = None ->
  (validateChild key (Joi.TString [] Joi.Required) item).2 <> [].
Proof.
  intros Hbad Hok. apply required_string_ok in Hok as (s & -> & _). discriminate.
Qed.

End ValidationFacts.

Lemma processPaymentSchema_keys : NoDup (map fst payment.processPaymentSchema).
Proof. apply (bool_decide_unpack _). vm_compute. reflexivity. Qed.

Lemma createProductSchema_keys : NoDup (map fst productAdm.createProductSchema).
Proof. apply (bool_decide_unpack _). vm_compute. reflexivity. Qed.

Lemma createClientSchema_keys : NoDup (map fst clientAdm.createClientSchema).
Proof. apply (bool_decide_unpack _). vm_compute. reflexivity. Qed.

(** A payment body that passed the schema has the facade's input type,
    with an amount above 0. *)
Lemma payment_body_typed (coerceNumber : string -> Joi.Coercion)
  (isEmailValid : string -> bool) (reqBody value : Obj) :
  validateBody coerceNumber isEmailValid payment.processPaymentSchema reqBody = Next value ->
  exists input,
    payment.destructure value = Some input
    /\ prop reqBody "orderId" = JsString (payment.orderId input)
    /\ Spec.numeric coerceNumber (prop reqBody "amount") = Some (payment.amount input)
    /\ (0 < payment.amount input)%Q.
Proof.
  rewrite validateBody_cases.
  destruct (Spec.details coerceNumber isEmailValid payment.processPaymentSchema reqBody)
    as [|d ds] eqn:Hd; [|discriminate].
  intros Hv.
  assert (Hvalue : value = (Joi.validateKeys coerceNumber isEmailValid
                              payment.processPaymentSchema reqBody).1) by congruence.
  clear Hv. subst value.
  rewrite (details_eq _ _ _ _ processPaymentSchema_keys) in Hd.
  apply app_eq_nil in Hd as [Hd _]. cbn [flat_map payment.processPaymentSchema] in Hd.
  apply app_eq_nil in Hd as [Ho Ha]. apply app_eq_nil in Ha as [Ha _].
  unfold Spec.childErrors in Ho, Ha. cbn [fst snd] in Ho, Ha.
  apply required_string_ok in Ho as (s & Hs & Ho).
  apply required_positive_ok in Ha as (n & Ha & Hn & Hpos).
  exists (payment.mkInput s n). unfold payment.destructure.
  rewrite (validateKeys_prop coerceNumber isEmailValid _ reqBody "orderId"
             (Joi.TString [] Joi.Required) processPaymentSchema_keys)
    by (cbn; auto).
  rewrite (validateKeys_prop coerceNumber isEmailValid _ reqBody "amount"
             (Joi.TNumber [Joi.Positive] Joi.Required) processPaymentSchema_keys)
    by (cbn; auto).
  rewrite Ho, Ha. cbn. auto.
Qed.

(** C3.  A payload that fails schema validation is answered 400 with an
    error body and the handler is not run, whatever the handler is: no
    use case is invoked and the store is as it was.  A payload that passes
    is forwarded as Joi normalised it.  For a payment, a missing or
    non-string order identifier, an amount that is not a number, and an
    amount that is not above 0 all fail validation. *)
Theorem validation_stops_the_pipeline (coerceNumber : string -> Joi.Coercion)
  (isEmailValid : string -> bool) :
  (forall schema reqBody details value,
      Joi.validate coerceNumber isEmailValid schema reqBody = (Some details, value) ->
      validateBody coerceNumber isEmailValid schema reqBody
      = Responded (mkResponse 400 (errorBody (Str.join "; " (map Joi.message details))))
      /\ forall (W I : Type) (destructure : Obj -> option I)
           (handler : I -> W -> Response * W) (w : W),
          chain (validateBody coerceNumber isEmailValid schema) destructure handler reqBody w
          = Some (mkResponse 400 (errorBody (Str.join "; " (map Joi.message details))), w))
  /\ (forall schema reqBody value,
        Joi.validate coerceNumber isEmailValid schema reqBody = (None, value) ->
        validateBody coerceNumber isEmailValid schema reqBody = Next value
        /\ forall (W I : Type) (destructure : Obj -> option I)
             (handler : I -> W -> Response * W) (w : W) input,
            destructure value = Some input ->
            chain (validateBody coerceNumber isEmailValid schema) destructure handler reqBody w
            = Some (handler input w))
  /\ (forall env reqBody db,
        asString (prop reqBody "orderId") = None
        \/ Spec.numeric coerceNumber (prop reqBody "amount") = None
        \/ (exists n, Spec.numeric coerceNumber (prop reqBody "amount") = Some n /\ (n <= 0)%Q) ->
        exists message,
          payment.route coerceNumber isEmailValid env reqBody db
          = Some (mkResponse 400 (errorBody message), db))
  /\ (forall env reqBody db value,
        validateBody coerceNumber isEmailValid payment.processPaymentSchema reqBody
        = Next value ->
        exists input,
          payment.destructure value = Some input
          /\ (0 < payment.amount input)%Q
          /\ payment.route coerceNumber isEmailValid env reqBody db
             = Some (payment.post (payment.PaymentFacade_process env) input db)).
Proof.
  split; [|split; [|split]].
  - intros schema reqBody details value Hv.
    assert (Hmw : validateBody coerceNumber isEmailValid schema reqBody
                  = Responded (mkResponse 400
                                 (errorBody (Str.join "; " (map Joi.message details)))))
      by (unfold validateBody; now rewrite Hv).
    split; [exact Hmw|]. intros W I destructure handler w. unfold chain. now rewrite Hmw.
  - intros schema reqBody value Hv.
    assert (Hmw : validateBody coerceNumber isEmailValid schema reqBody = Next value)
      by (unfold validateBody; now rewrite Hv).
    split; [exact Hmw|]. intros W I destructure handler w input Hin.
    unfold chain. now rewrite Hmw, Hin.
  - intros env reqBody db Hbad.
    assert (Hne : Spec.details coerceNumber isEmailValid payment.processPaymentSchema reqBody
                  <> []).
    { rewrite (details_eq _ _ _ _ processPaymentSchema_keys). intros Hd.
      apply app_eq_nil in Hd as [Hd _]. cbn [flat_map payment.processPaymentSchema] in Hd.
      apply app_eq_nil in Hd as [Ho Ha]. apply app_eq_nil in Ha as [Ha _].
      destruct Hbad as [Hbad|Hbad].
      - now apply (required_string_rejects coerceNumber isEmailValid "orderId") in Hbad.
      - now apply (required_positive_rejects coerceNumber isEmailValid "amount") in Hbad. }
    unfold payment.route, chain. rewrite validateBody_cases.
    destruct (Spec.details _ _ _ _); [contradiction|]. eauto.
  - intros env reqBody db value Hv.
    destruct (payment_body_typed _ _ _ _ Hv) as (input & Hin & _ & _ & Hpos).
    exists input. split; [exact Hin|]. split; [exact Hpos|].
    unfold payment.route, chain. now rewrite Hv, Hin.
Qed.

(** The theorem on the payloads of the route tests: an amount of 0 is
    answered 400 and the table stays empty; an amount of 150 goes through
    to the handler. *)
Lemma validation_stops_the_pipeline_witness :
  (exists message,
      payment.route examples.coerceNumber examples.isEmailValid examples.env
        [ ("orderId", JsString "order-001"); ("amount", JsNumber 0) ] examples.noTransactions
      = Some (mkResponse 400 (errorBody message), examples.noTransactions))
  /\ exists input,
      payment.destructure examples.validPayment = Some input
      /\ (0 < payment.amount input)%Q
      /\ payment.route examples.coerceNumber examples.isEmailValid examples.env
           examples.validPayment examples.noTransactions
         = Some (payment.post (payment.PaymentFacade_process examples.env) input
                   examples.noTransactions).
Proof.
  destruct (validation_stops_the_pipeline examples.coerceNumber examples.isEmailValid)
    as (_ & _ & Hbad & Hok).
  split.
  - apply Hbad. right. right. exists 0%Q. split; [reflexivity | discriminate].
  - apply (Hok examples.env examples.validPayment examples.noTransactions
             examples.validPayment eq_refl).
Defined.





(** Every key of the payload that the schema does not declare has its
    own detail. *)
Lemma unknown_key_detail (schema : Joi.ObjectSchema) (reqBody : Obj) (key : string) :
  In key (keys reqBody) -> Joi.declares schema key = false ->
  In (Joi.report "object.unknown" key "is not allowed") (Joi.unknownKeys schema reqBody).
Proof.
  intros Hin Hdecl. unfold Joi.unknownKeys. apply in_flat_map.
  exists key. split; [exact Hin|]. rewrite Hdecl. now left.
Qed.

(** Without unknown-key details every key of the payload is declared. *)
Lemma no_unknown_keys (schema : Joi.ObjectSchema) (reqBody : Obj) :
  Joi.unknownKeys schema reqBody = [] ->
  Forall (fun key => Joi.declares schema key = true) (keys reqBody).
Proof.
  unfold Joi.unknownKeys. induction (keys reqBody) as [|key rest IH]; cbn; [constructor|].
  destruct (Joi.declares schema key) eqn:E; cbn; [|discriminate].
  intros H. constructor; auto.
Qed.

(** C9, as the code has it.  A payload that carries a key the schema does
    not declare is answered 400, with the message that the key is not
    allowed, and the handler is not run, whether or not the declared
    fields are valid; a payload is forwarded only when each of its keys is
    declared, and it is forwarded with the keys it came with. *)
Theorem unknown_fields_are_rejected (coerceNumber : string -> Joi.Coercion)
  (isEmailValid : string -> bool) (schema : Joi.ObjectSchema) (reqBody : Obj) :
  (forall key,
      In key (keys reqBody) -> Joi.declares schema key = false ->
      exists message,
        validateBody coerceNumber isEmailValid schema reqBody
        = Responded (mkResponse 400 (errorBody message))
        /\ Str.Substring (Joi.label key +:+ " is not allowed") message
        /\ forall (W I : Type) (destructure : Obj -> option I)
             (handler : I -> W -> Response * W) (w : W),
            chain (validateBody coerceNumber isEmailValid schema) destructure handler
              reqBody w
            = Some (mkResponse 400 (errorBody message), w))
  /\ (forall value,
        validateBody coerceNumber isEmailValid schema reqBody = Next value ->
        keys value = keys reqBody
        /\ Forall (fun key => Joi.declares schema key = true) (keys value)).
Proof.
  split.
  - intros key Hin Hdecl.
    destruct (detail_reported coerceNumber isEmailValid schema reqBody
                (Joi.report "object.unknown" key "is not allowed"))
      as (message & Hres & Hsub).
    { rewrite details_app. apply in_or_app. right. now apply unknown_key_detail. }
    exists message. split; [exact Hres|]. split; [exact Hsub|].
    intros W I destructure handler w. unfold chain. now rewrite Hres.
  - intros value. rewrite validateBody_cases.
    destruct (Spec.details coerceNumber isEmailValid schema reqBody) as [|d ds] eqn:Hd;
      [|discriminate].
    intros Hv.
    assert (Hvalue : value = (Joi.validateKeys coerceNumber isEmailValid schema reqBody).1)
      by congruence.
    clear Hv. subst value. rewrite validateKeys_keys. split; [reflexivity|].
    rewrite details_app in Hd. apply app_eq_nil in Hd as [_ Hd].
    now apply no_unknown_keys.
Qed.

(** The theorem on a valid payment that carries a note. *)
Lemma unknown_fields_are_rejected_witness :
  In "note" (keys examples.paymentWithNote)
  /\ Joi.declares payment.processPaymentSchema "note" = false
  /\ exists message,
      validateBody examples.coerceNumber examples.isEmailValid
        payment.processPaymentSchema examples.paymentWithNote
      = Responded (mkResponse 400 (errorBody message))
      /\ Str.Substring (Joi.label "note" +:+ " is not allowed") message.
Proof.
  split; [cbn; auto|]. split; [reflexivity|].
  destruct (proj1 (unknown_fields_are_rejected examples.coerceNumber examples.isEmailValid
                     payment.processPaymentSchema examples.paymentWithNote)
              "note") as (message & Hres & Hsub & _).
  - cbn. auto.
  - reflexivity.
  - exists message. split; [exact Hres | exact Hsub].
Defined.

(** C9, as stated, fails: the payment without the note passes, and with
    the note it is answered 400 rather than forwarded without it. *)
Lemma unknown_field_not_stripped_counterexample :
  validateBody examples.coerceNumber examples.isEmailValid
    payment.processPaymentSchema examples.validPayment
  = Next examples.validPayment
  /\ validateBody examples.coerceNumber examples.isEmailValid
       payment.processPaymentSchema examples.paymentWithNote
     = Responded (mkResponse 400 (errorBody (Joi.label "note" +:+ " is not allowed")))
  /\ ~ Spec.strippedAndForwarded examples.coerceNumber examples.isEmailValid
         payment.processPaymentSchema examples.paymentWithNote.
Proof.
  split; [reflexivity|]. split; [reflexivity|].
  intros (value & Hres & _). vm_compute in Hres. discriminate.
Qed.

(** ** The two views of a product *)

Lemma findAll_items (W : Type) (productRepository : storeCatalog.ProductGateway W)
  (w w' : W) (products : list storeCatalog.Product) :
  storeCatalog.findAll productRepository w = (Resolved products, w') ->
  exists items,
    storeCatalog.getAll (storeCatalog.StoreCatalogFacade_findAll productRepository) w
    = (mkResponse 200 [("products", JsArray items)], w')
    /\ length items = length products
    /\ Forall (Spec.hasFields Spec.catalogFields) items.
Proof.
  intros Hall.
  unfold storeCatalog.getAll, storeCatalog.StoreCatalogFacade_findAll,
    storeCatalog.FindAllProductsUsecase_execute.
  rewrite Hall. eexists. split; [reflexivity|].
  split; [apply length_map|].
  apply List.Forall_forall. intros item Hin. apply in_map_iff in Hin as (product & <- & _).
  eexists. split; reflexivity.
Qed.

(** C8.  The catalog answers, the list and the lookup by id, carry for
    every stored product exactly the fields id, name, description and
    salesPrice, and so no purchasePrice; the stock check of the
    administration carries exactly productId and stock, and so no
    salesPrice. *)
Theorem product_views_expose_their_fields :
  (forall (W : Type) (productRepository : storeCatalog.ProductGateway W) w w' products,
      storeCatalog.findAll productRepository w = (Resolved products, w') ->
      exists items,
        storeCatalog.getAll (storeCatalog.StoreCatalogFacade_findAll productRepository) w
        = (mkResponse 200 [("products", JsArray items)], w')
        /\ length items = length products
        /\ Forall (Spec.hasFields Spec.catalogFields) items)
  /\ (forall products : gmap string database.ProductRow,
        exists items,
          storeCatalog.getAll
            (storeCatalog.StoreCatalogFacade_findAll storeCatalog.ProductRepository) products
          = (mkResponse 200 [("products", JsArray items)], products)
          /\ length items = length (map_to_list products)
          /\ Forall (Spec.hasFields Spec.catalogFields) items)
  /\ (forall id (products : gmap string database.ProductRow) row,
        products !! id = Some row ->
        exists body,
          storeCatalog.get
            (storeCatalog.StoreCatalogFacade_find storeCatalog.ProductRepository) id products
          = (mkResponse 200 body, products)
          /\ keys body = Spec.catalogFields
          /\ prop body "salesPrice" = nullable (database.sales_price row))
  /\ (forall id (products : gmap string database.ProductRow) row,
        products !! id = Some row ->
        exists body,
          productAdm.getStock lookups.ProductAdmFacade_checkStock id products
          = (mkResponse 200 body, products)
          /\ keys body = Spec.stockFields
          /\ prop body "stock" = JsNumber (inject_Z (database.product_stock row)))
  /\ ~ In "purchasePrice" Spec.catalogFields
  /\ ~ In "salesPrice" Spec.stockFields.
Proof.
  split; [|split; [|split; [|split; [|split]]]].
  - apply findAll_items.
  - intros products.
    destruct (findAll_items _ storeCatalog.ProductRepository products products
                (map storeCatalog.toProduct (map_to_list products)) eq_refl)
      as (items & Hres & Hlen & Hfields).
    exists items. split; [exact Hres|]. split; [|exact Hfields].
    now rewrite Hlen, length_map.
  - intros id products row Hrow. eexists. split.
    + unfold storeCatalog.get, storeCatalog.StoreCatalogFacade_find,
        storeCatalog.FindProductUseCase_execute, storeCatalog.ProductRepository.
      cbn. rewrite Hrow. reflexivity.
    + split; reflexivity.
  - intros id products row Hrow. eexists. split.
    + unfold productAdm.getStock, lookups.ProductAdmFacade_checkStock,
        lookups.CheckStockUseCase_execute. rewrite Hrow. reflexivity.
    + split; reflexivity.
  - cbn. intros H. repeat destruct H as [H|H]; discriminate || exact H.
  - cbn. intros H. repeat destruct H as [H|H]; discriminate || exact H.
Qed.

(** The theorem on a table whose one row has both prices. *)
Lemma product_views_expose_their_fields_witness :
  examples.oneProduct !! "cat-prod-001"
  = Some (database.mkProductRow "Gaming Chair" "Ergonomic gaming chair"
            (Some (500 # 1)) (Some (8999 # 10)) 30 1700000000000 1700000000000)
  /\ (exists body,
         storeCatalog.get
           (storeCatalog.StoreCatalogFacade_find storeCatalog.ProductRepository)
           "cat-prod-001" examples.oneProduct
         = (mkResponse 200 body, examples.oneProduct)
         /\ keys body = Spec.catalogFields
         /\ prop body "salesPrice" = nullable (Some (8999 # 10)))
  /\ exists body,
      productAdm.getStock lookups.ProductAdmFacade_checkStock "cat-prod-001"
        examples.oneProduct
      = (mkResponse 200 body, examples.oneProduct)
      /\ keys body = Spec.stockFields
      /\ prop body "stock" = JsNumber (inject_Z 30).
Proof.
  destruct product_views_expose_their_fields as (_ & _ & Hfind & Hstock & _).
  split; [apply lookup_singleton_eq|]. split.
  - apply (Hfind "cat-prod-001" examples.oneProduct _ (lookup_singleton_eq _ _)).
  - apply (Hstock "cat-prod-001" examples.oneProduct _ (lookup_singleton_eq _ _)).
Defined.

(** * Further properties of the code *)

(** ** The lookups' catch clause *)

Lemma toLowerCase_app (a b : string) :
  Str.toLowerCase (a +:+ b) = Str.toLowerCase a +:+ Str.toLowerCase b.
Proof.
  induction a as [|c a IH]; [reflexivity|].
  rewrite append_cons. cbn [Str.toLowerCase]. rewrite append_cons. now f_equal.
Qed.

(** X1.  A lookup that fails with anything that is not an Error is
    answered 500 with the fixed message, never 404, whatever was thrown
    (also the string "not found"). *)
Theorem lookup_non_error_is_500 (W : Type) handler (facade : Call W string Obj)
  (id : string) (w w' : W) (v : JsValue) :
  In handler (Spec.lookupHandlers W) ->
  facade id w = (Rejected (NonError v), w') ->
  handler facade id w = (mkResponse 500 (errorBody "Internal server error"), w').
Proof.
  intros Hin Hcall. now rewrite (lookup_rejected W handler Hin facade id w _ w' Hcall).
Qed.

Lemma lookup_non_error_is_500_witness :
  productAdm.getStock (fun (_ : string) (w : unit) => (Rejected (NonError (JsString "not found")), w))
    "p1" tt
  = (mkResponse 500 (errorBody "Internal server error"), tt).
Proof.
  apply (lookup_non_error_is_500 unit productAdm.getStock
           (fun _ w => (Rejected (NonError (JsString "not found")), w)) "p1" tt tt
           (JsString "not found")).
  - cbn. auto.
  - reflexivity.
Defined.

(** X2.  The match on "not found" is blind to letter case and to what
    surrounds it: an Error whose message contains the words in any
    casing, anywhere, makes a lookup answer 404 with that message. *)
Theorem lookup_not_found_any_case (W : Type) handler (facade : Call W string Obj)
  (id : string) (w w' : W) (before words after : string) :
  In handler (Spec.lookupHandlers W) ->
  Str.toLowerCase words = "not found" ->
  facade id w = (Rejected (ErrorInstance (before +:+ words +:+ after)), w') ->
  handler facade id w = (mkResponse 404 (errorBody (before +:+ words +:+ after)), w').
Proof.
  intros Hin Hwords Hcall.
  rewrite (lookup_rejected W handler Hin facade id w _ w' Hcall).
  unfold catchLookup. cbn [messageOf].
  assert (Hinc : Str.includes (Str.toLowerCase (before +:+ words +:+ after)) "not found" = true).
  { apply includes_spec. rewrite !toLowerCase_app, Hwords.
    now exists (Str.toLowerCase before), (Str.toLowerCase after). }
  now rewrite Hinc.
Qed.

Lemma lookup_not_found_any_case_witness :
  clientAdm.get
    (fun (_ : string) (w : unit) =>
       (Rejected (ErrorInstance ("Lookup failed: client " +:+ "Not Found" +:+ " (id c1)")), w))
    "c1" tt
  = (mkResponse 404
       (errorBody ("Lookup failed: client " +:+ "Not Found" +:+ " (id c1)")), tt).
Proof.
  apply (lookup_not_found_any_case unit clientAdm.get
           (fun _ w =>
              (Rejected (ErrorInstance ("Lookup failed: client " +:+ "Not Found" +:+ " (id c1)")), w))
           "c1" tt tt "Lookup failed: client " "Not Found" " (id c1)").
  - cbn. auto.
  - reflexivity.
  - reflexivity.
Defined.

(** ** The catalog list *)

(** X3.  The catalog list keeps the repository's products: the array has
    one object per product, in the repository's order, and the object at
    a position carries the id, name, description and sales price of the
    product at that position. *)
Theorem find_all_keeps_order (W : Type) (productRepository : storeCatalog.ProductGateway W)
  (w w' : W) (products : list storeCatalog.Product) :
  storeCatalog.findAll productRepository w = (Resolved products, w') ->
  exists items,
    storeCatalog.getAll (storeCatalog.FindAllProductsUsecase_execute productRepository) w
    = (mkResponse 200 [("products", JsArray items)], w')
    /\ length items = length products
    /\ forall (i : nat) product,
        products !! i = Some product ->
        exists o,
          items !! i = Some (JsObject o)
          /\ prop o "id" = JsString (valueObject.id (storeCatalog.id product))
          /\ prop o "name" = JsString (storeCatalog.name product)
          /\ prop o "description" = JsString (storeCatalog.description product)
          /\ prop o "salesPrice" = nullable (storeCatalog.salesPrice product).
Proof.
  intros Hall. unfold storeCatalog.getAll, storeCatalog.FindAllProductsUsecase_execute.
  rewrite Hall. eexists. split; [reflexivity|]. split; [apply length_map|].
  intros i product Hi. eexists. split.
  - rewrite list_lookup_fmap, Hi. reflexivity.
  - repeat split.
Qed.

Lemma find_all_keeps_order_witness :
  exists items,
    storeCatalog.getAll
      (storeCatalog.FindAllProductsUsecase_execute
         (storeCatalog.mkGateway unit (fun w => (Resolved samples.catalog, w))
            (fun _ w => (Resolved None, w)))) tt
    = (mkResponse 200 [("products", JsArray items)], tt)
    /\ length items = 2%nat.
Proof.
  destruct (find_all_keeps_order unit
              (storeCatalog.mkGateway unit (fun w => (Resolved samples.catalog, w))
                 (fun _ w => (Resolved None, w)))
              tt tt samples.catalog eq_refl) as (items & Hres & Hlen & _).
  exists items. split; [exact Hres | exact Hlen].
Defined.

(** ** Start-up and shutdown *)

(** The start-up, case by case: what the three calls answer decides the
    run. *)
Lemma startServer_cases (env : gmap string string) (sequelize : server.Sequelize)
  (listen : Outcome unit) :
  let ready :=
    [ server.Authenticate;
      server.LogInfo "Database connection established successfully" ]
    ++ (if decide (env !! "NODE_ENV" = Some "test") then []
        else [ server.Sync; server.LogInfo "Database synchronized" ]) in
  server.startServer env sequelize listen
  = match server.authenticate sequelize with
    | Rejected e =>
        ([ server.Authenticate; server.LogError "Unable to connect to database:" e ],
         server.Exited 1)
    | Resolved _ =>
        match (if decide (env !! "NODE_ENV" = Some "test") then Resolved tt
               else server.sync sequelize) with
        | Rejected e =>
            ([ server.Authenticate;
               server.LogInfo "Database connection established successfully";
               server.Sync; server.LogError "Unable to connect to database:" e ],
             server.Exited 1)
        | Resolved _ =>
            match listen with
            | Rejected e =>
                (ready ++ [ server.Listen (server.port env);
                            server.LogError "Failed to start server:" e ],
                 server.Exited 1)
            | Resolved _ =>
                (ready ++ [ server.Listen (server.port env);
                            server.LogInfo ("Server running on port " +:+ server.port env);
                            server.LogInfo
                              ("Environment: "
                               +:+ server.orElse (env !! "NODE_ENV") "development") ],
                 server.Returned tt)
            end
        end
    end.
Proof.
  unfold server.startServer, server.connectDatabase.
  destruct (server.authenticate sequelize) as [[]|e]; [|reflexivity].
  destruct (decide (env !! "NODE_ENV" = Some "test")) as [Htest|Htest].
  - destruct listen as [[]|e]; reflexivity.
  - destruct (server.sync sequelize) as [[]|e]; [|reflexivity].
    destruct listen as [[]|e]; reflexivity.
Qed.

(** X4.  The server listens only on a database that is ready: when a
    run of [startServer] reaches [app.listen], the connection was
    authenticated before, and outside the test environment the schema
    was synchronised before, in that order; and it listens on the
    configured port. *)
Theorem server_listens_only_when_database_ready (env : gmap string string)
  (sequelize : server.Sequelize) (listen : Outcome unit) (p : string) :
  In (server.Listen p) (server.startServer env sequelize listen).1 ->
  p = server.port env
  /\ (exists u, server.authenticate sequelize = Resolved u)
  /\ (env !! "NODE_ENV" = Some "test" \/ exists u, server.sync sequelize = Resolved u)
  /\ server.precedes server.Authenticate (server.Listen p)
       (server.startServer env sequelize listen).1
  /\ (env !! "NODE_ENV" <> Some "test" ->
      server.precedes server.Sync (server.Listen p)
        (server.startServer env sequelize listen).1).
Proof.
  rewrite startServer_cases. cbn zeta.
  destruct (server.authenticate sequelize) as [[]|e].
  2:{ cbn. intros H. repeat (destruct H as [H|H]; [discriminate H|]). destruct H. }
  destruct (decide (env !! "NODE_ENV" = Some "test")) as [Htest|Htest].
  - assert (Hgoal : forall rest,
               In (server.Listen p)
                 ([server.Authenticate;
                   server.LogInfo "Database connection established successfully"]
                  ++ server.Listen (server.port env) :: rest) ->
               (forall q, ~ In (server.Listen q) rest) ->
               p = server.port env
               /\ (exists u : unit, Resolved () = Resolved u)
               /\ (env !! "NODE_ENV" = Some "test" \/ exists u, server.sync sequelize = Resolved u)
               /\ server.precedes server.Authenticate (server.Listen p)
                    ([server.Authenticate;
                      server.LogInfo "Database connection established successfully"]
                     ++ server.Listen (server.port env) :: rest)
               /\ (env !! "NODE_ENV" <> Some "test" ->
                   server.precedes server.Sync (server.Listen p)
                     ([server.Authenticate;
                       server.LogInfo "Database connection established successfully"]
                      ++ server.Listen (server.port env) :: rest))).
    { intros rest Hin Hrest. cbn in Hin.
      destruct Hin as [H|[H|[H|H]]]; try discriminate H; [|now apply Hrest in H].
      injection H as <-.
      split; [reflexivity|]. split; [eauto|]. split; [now left|].
      split; [|intros Hne; contradiction].
      now exists [], [server.LogInfo "Database connection established successfully"], rest. }
    destruct listen as [[]|e]; cbn [fst app]; intros Hin;
      (apply Hgoal; [exact Hin|]);
      intros q H; cbn in H; repeat (destruct H as [H|H]; [discriminate H|]); destruct H.
  - destruct (server.sync sequelize) as [[]|e].
    2:{ cbn. intros H. repeat (destruct H as [H|H]; [discriminate H|]). destruct H. }
    assert (Hgoal : forall rest,
               In (server.Listen p)
                 ([server.Authenticate;
                   server.LogInfo "Database connection established successfully";
                   server.Sync; server.LogInfo "Database synchronized"]
                  ++ server.Listen (server.port env) :: rest) ->
               (forall q, ~ In (server.Listen q) rest) ->
               p = server.port env
               /\ (exists u : unit, Resolved () = Resolved u)
               /\ (env !! "NODE_ENV" = Some "test" \/ exists u : unit, Resolved () = Resolved u)
               /\ server.precedes server.Authenticate (server.Listen p)
                    ([server.Authenticate;
                      server.LogInfo "Database connection established successfully";
                      server.Sync; server.LogInfo "Database synchronized"]
                     ++ server.Listen (server.port env) :: rest)
               /\ (env !! "NODE_ENV" <> Some "test" ->
                   server.precedes server.Sync (server.Listen p)
                     ([server.Authenticate;
                       server.LogInfo "Database connection established successfully";
                       server.Sync; server.LogInfo "Database synchronized"]
                      ++ server.Listen (server.port env) :: rest))).
    { intros rest Hin Hrest. cbn in Hin.
      destruct Hin as [H|[H|[H|[H|[H|H]]]]]; try discriminate H; [|now apply Hrest in H].
      injection H as <-.
      split; [reflexivity|]. split; [eauto|]. split; [right; eauto|].
      split.
      - now exists [],
                   [server.LogInfo "Database connection established successfully";
                    server.Sync; server.LogInfo "Database synchronized"], rest.
      - intros _.
        now exists [server.Authenticate;
                    server.LogInfo "Database connection established successfully"],
                   [server.LogInfo "Database synchronized"], rest. }
    destruct listen as [[]|e]; cbn [fst app]; intros Hin;
      (apply Hgoal; [exact Hin|]);
      intros q H; cbn in H; repeat (destruct H as [H|H]; [discriminate H|]); destruct H.
Qed.

Lemma server_listens_only_when_database_ready_witness :
  In (server.Listen "3000")
    (server.startServer samples.development samples.healthy (Resolved tt)).1
  /\ server.precedes server.Sync (server.Listen "3000")
       (server.startServer samples.development samples.healthy (Resolved tt)).1.
Proof.
  assert (Hin : In (server.Listen "3000")
                  (server.startServer samples.development samples.healthy (Resolved tt)).1)
    by (vm_compute; do 4 right; left; reflexivity).
  split; [exact Hin|].
  apply (server_listens_only_when_database_ready samples.development samples.healthy
           (Resolved tt) "3000" Hin).
  discriminate.
Defined.


(** X6.  The schema is synchronised exactly when the module is run as
    the main module, outside the test environment, on a connection that
    authenticated; in the test environment, and when the module is only
    imported, [sequelize.sync] is never called. *)
Theorem sync_only_outside_test (requireMain : bool) (env : gmap string string)
  (sequelize : server.Sequelize) (listen : Outcome unit) :
  In server.Sync (server.main requireMain env sequelize listen).1
  <-> requireMain = true
      /\ env !! "NODE_ENV" <> Some "test"
      /\ exists u, server.authenticate sequelize = Resolved u.
Proof.
  unfold server.main. destruct requireMain.
  2:{ cbn. split; [intros [] | intros (H & _); discriminate]. }
  rewrite startServer_cases. cbn zeta.
  destruct (server.authenticate sequelize) as [[]|e].
  2:{ cbn. split.
      - intros H. repeat (destruct H as [H|H]; [discriminate H|]). destruct H.
      - intros (_ & _ & (u & H)). discriminate. }
  destruct (decide (env !! "NODE_ENV" = Some "test")) as [Htest|Htest].
  - destruct listen as [[]|e]; cbn; (split;
      [ intros H; repeat (destruct H as [H|H]; [discriminate H|]); destruct H
      | intros (_ & H & _); contradiction ]).
  - destruct (server.sync sequelize) as [[]|e]; [destruct listen as [[]|e]|]; cbn;
      (split; [intros _; eauto | intros _; auto]).
Qed.

(** X7.  Either signal closes the connection once and does nothing else
    to the database or the listener; the process exits with code 0
    exactly when the close succeeded, and a failing close surfaces as the
    handler's rejection instead of a clean exit. *)
Theorem shutdown_closes_before_exit (sequelize : server.Sequelize) handler :
  In handler [ server.onSIGTERM; server.onSIGINT ] ->
  (exists message, (handler sequelize).1 = [ server.LogInfo message; server.Close ])
  /\ ((handler sequelize).2 = server.Exited 0 <-> exists u, server.close sequelize = Resolved u)
  /\ (forall e, server.close sequelize = Rejected e -> (handler sequelize).2 = server.Threw e).
Proof.
  intros [<-|[<-|[]]]; unfold server.onSIGTERM, server.onSIGINT;
    destruct (server.close sequelize) as [[]|e]; cbn.
  - split; [eauto|]. split; [split; eauto|]. intros e H. discriminate H.
  - split; [eauto|]. split.
    + split; [discriminate|]. intros (u & H). discriminate H.
    + intros e' H. congruence.
  - split; [eauto|]. split; [split; eauto|]. intros e H. discriminate H.
  - split; [eauto|]. split.
    + split; [discriminate|]. intros (u & H). discriminate H.
    + intros e' H. congruence.
Qed.

Lemma shutdown_closes_before_exit_witness :
  (server.onSIGTERM samples.healthy).2 = server.Exited 0
  /\ (server.onSIGINT
        (server.mkSequelize (Resolved tt) (Resolved tt) (Rejected (ErrorInstance "busy")))).2
     = server.Threw (ErrorInstance "busy").
Proof.
  split.
  - apply (proj1 (proj2 (shutdown_closes_before_exit samples.healthy server.onSIGTERM
                           (or_introl eq_refl)))).
    now exists tt.
  - apply (proj2 (proj2 (shutdown_closes_before_exit
                           (server.mkSequelize (Resolved tt) (Resolved tt)
                              (Rejected (ErrorInstance "busy")))
                           server.onSIGINT (or_intror (or_introl eq_refl))))).
    reflexivity.
Defined.

(** ** The connection options *)

Lemma orElse_nonempty (value : option string) (fallback : string) :
  fallback <> "" -> server.orElse value fallback <> "".
Proof.
  intros Hf. unfold server.orElse. destruct value as [s|]; [|exact Hf].
  destruct (String.eqb s "") eqn:E; [exact Hf|]. now apply String.eqb_neq.
Qed.

(** X8.  Outside the test environment the options are PostgreSQL's, and
    the host, database, user and password are never empty: a variable
    that is unset or empty gives way to its default.  Statements are
    printed except in production.  In the test environment the options
    are those of the in-memory SQLite database, which prints nothing,
    whatever the DB_ variables hold. *)
Theorem connection_settings_never_empty (parseInt : string -> option Z) (modelsGlob : string)
  (env : gmap string string) :
  (env !! "NODE_ENV" <> Some "test" ->
   exists host port database username password logging define pool models,
     sequelizeConfig.sequelize parseInt modelsGlob env
     = sequelizeConfig.Postgres host port database username password logging define pool
         models
     /\ host <> "" /\ database <> "" /\ username <> "" /\ password <> ""
     /\ (forall v, env !! "DB_HOST" = Some v -> v <> "" -> host = v)
     /\ (logging = false <-> env !! "NODE_ENV" = Some "production"))
  /\ (env !! "NODE_ENV" = Some "test" ->
      sequelizeConfig.sequelize parseInt modelsGlob env
      = sequelizeConfig.Sqlite ":memory:" false true [modelsGlob]).
Proof.
  unfold sequelizeConfig.sequelize, sequelizeConfig.isTest, sequelizeConfig.isProduction.
  split; intros Htest.
  - rewrite bool_decide_eq_false_2 by exact Htest.
    do 9 eexists. split; [reflexivity|].
    repeat (split; [apply orElse_nonempty; discriminate|]).
    split.
    + intros v Hv Hne. unfold server.orElse. rewrite Hv.
      apply String.eqb_neq in Hne. now rewrite Hne.
    + destruct (bool_decide (env !! "NODE_ENV" = Some "production")) eqn:E.
      * apply bool_decide_eq_true_1 in E. easy.
      * apply bool_decide_eq_false_1 in E. split; [discriminate | contradiction].
  - now rewrite bool_decide_eq_true_2 by exact Htest.
Qed.

Lemma connection_settings_never_empty_witness :
  (exists host port database username password logging define pool models,
      sequelizeConfig.sequelize (fun _ => Some 5432) "models"
        (<["DB_HOST" := ""]> (<["NODE_ENV" := "production"]> ∅))
      = sequelizeConfig.Postgres host port database username password logging define pool
          models
      /\ host <> "" /\ logging = false)
  /\ sequelizeConfig.sequelize (fun _ => Some 5432) "models"
       (<["DB_HOST" := "db.internal"]> samples.testing)
     = sequelizeConfig.Sqlite ":memory:" false true ["models"].
Proof.
  split.
  - destruct (proj1 (connection_settings_never_empty (fun _ => Some 5432) "models"
                       (<["DB_HOST" := ""]> (<["NODE_ENV" := "production"]> ∅))))
      as (host & port & database & username & password & logging & define & pool & models
          & Heq & Hhost & _ & _ & _ & _ & Hlog).
    + vm_compute. discriminate.
    + exists host, port, database, username, password, logging, define, pool, models.
      split; [exact Heq|]. split; [exact Hhost|]. apply Hlog. reflexivity.
  - apply (proj2 (connection_settings_never_empty (fun _ => Some 5432) "models"
                    (<["DB_HOST" := "db.internal"]> samples.testing))).
    reflexivity.
Defined.

(** ** The POST routes, from the raw payload to the answer *)

Lemma flat_map_nil_inv {A B : Type} (f : A -> list B) (l : list A) (x : A) :
  flat_map f l = [] -> In x l -> f x = [].
Proof.
  induction l as [|y l IH]; [easy|]. cbn. intros H [->|Hin].
  - now apply app_eq_nil in H.
  - apply IH; [|exact Hin]. now apply app_eq_nil in H.
Qed.

Section RouteFacts.

Variable coerceNumber : string -> Joi.Coercion.
Variable isEmailValid : string -> bool.

Local Abbreviation validateChild := (Joi.validateChild coerceNumber isEmailValid).
Local Abbreviation stage := (validateBody coerceNumber isEmailValid).

(** The stage answers nothing but 400, with an error body. *)
Lemma stage_responded (schema : Joi.ObjectSchema) (reqBody : Obj) (res : Response) :
  stage schema reqBody = Responded res -> exists message, res = mkResponse 400 (errorBody message).
Proof.
  rewrite validateBody_cases.
  destruct (Spec.details coerceNumber isEmailValid schema reqBody); [discriminate|].
  intros H. injection H as <-. eauto.
Qed.

(** What is forwarded holds, at each declared key, the value its child
    resulted in, and no child had an error. *)
Lemma forwarded_child (schema : Joi.ObjectSchema) (reqBody value : Obj) (key : string)
  (child : Joi.Schema) :
  NoDup (map fst schema) -> In (key, child) schema ->
  stage schema reqBody = Next value ->
  (validateChild key child (prop reqBody key)).2 = []
  /\ prop value key = (validateChild key child (prop reqBody key)).1.
Proof.
  intros Hnd Hin. rewrite validateBody_cases.
  destruct (Spec.details coerceNumber isEmailValid schema reqBody) as [|d ds] eqn:Hd;
    [|discriminate].
  intros Hv.
  assert (Hvalue : value = (Joi.validateKeys coerceNumber isEmailValid schema reqBody).1)
    by congruence.
  clear Hv. subst value. split.
  - rewrite (details_eq _ _ _ _ Hnd) in Hd. apply app_eq_nil in Hd as [Hd _].
    exact (flat_map_nil_inv _ _ (key, child) Hd Hin).
  - now apply validateKeys_prop.
Qed.

(** A string child without rules passes what it is given unchanged: a
    string that is not empty, or nothing when it is optional. *)
Lemma plain_string_ok (key : string) (presence : Joi.Presence) (item : JsValue) :
  (validateChild key (Joi.TString [] presence) item).2 = [] ->
  (validateChild key (Joi.TString [] presence) item).1 = item
  /\ ((item = JsUndefined /\ presence = Joi.Optional)
      \/ exists s, item = JsString s /\ s <> "").
Proof.
  destruct item; cbn; try discriminate.
  - destruct presence; cbn; [auto | discriminate].
  - destruct (String.eqb s "") eqn:E; cbn; [discriminate|].
    intros _. split; [reflexivity|]. right. exists s. split; [reflexivity|].
    now apply String.eqb_neq.
Qed.

Lemma email_ok (key : string) (item : JsValue) :
  (validateChild key (Joi.TString [Joi.Email] Joi.Required) item).2 = [] ->
  exists s,
    item = JsString s /\ s <> "" /\ isEmailValid s = true
    /\ (validateChild key (Joi.TString [Joi.Email] Joi.Required) item).1 = item.
Proof.
  destruct item; cbn; try discriminate.
  destruct (String.eqb s "") eqn:E; cbn; [discriminate|].
  destruct (isEmailValid s) eqn:Hvalid; cbn; [|discriminate].
  intros _. exists s. apply String.eqb_neq in E. auto.
Qed.

(** A required number child passes a safe number that satisfies each of
    its rules. *)
Lemma required_number_ok (key : string) (rules : list Joi.NumberRule) (item : JsValue) :
  (validateChild key (Joi.TNumber rules Joi.Required) item).2 = [] ->
  exists n,
    (validateChild key (Joi.TNumber rules Joi.Required) item).1 = JsNumber n
    /\ Spec.numeric coerceNumber item = Some n
    /\ Joi.unsafe n = false
    /\ forall rule, In rule rules -> Joi.numberRule key n rule = [].
Proof.
  assert (Hcheck : forall n,
             (Joi.checkNumber key rules n).2 = [] ->
             (Joi.checkNumber key rules n).1 = JsNumber n
             /\ Joi.unsafe n = false
             /\ forall rule, In rule rules -> Joi.numberRule key n rule = []).
  { intros n. unfold Joi.checkNumber. destruct (Joi.unsafe n); cbn; [discriminate|].
    intros H. split; [reflexivity|]. split; [reflexivity|].
    intros rule Hin. exact (flat_map_nil_inv _ _ rule H Hin). }
  destruct item; cbn; try discriminate.
  - intros H. exists n. destruct (Hcheck n H) as (-> & ? & ?). auto.
  - destruct (coerceNumber s) as [|n|n]; cbn; try discriminate.
    intros H. exists n. destruct (Hcheck n H) as (-> & ? & ?). auto.
Qed.

Lemma positive_rule (key : string) (n : Q) :
  Joi.numberRule key n Joi.Positive = [] -> (0 < n)%Q.
Proof.
  cbn. destruct (Qle_bool n 0) eqn:E; cbn; [discriminate|]. intros _.
  destruct (Qlt_le_dec 0 n) as [H|H]; [exact H|]. apply Qle_bool_iff in H. congruence.
Qed.

Lemma integer_rule (key : string) (n : Q) :
  Joi.numberRule key n Joi.Integer = [] -> Joi.isInteger n = true.
Proof. cbn. now destruct (Joi.isInteger n). Qed.

Lemma min_rule (key : string) (n : Q) (limit : Z) :
  Joi.numberRule key n (Joi.Min limit) = [] -> (inject_Z limit <= n)%Q.
Proof.
  cbn. destruct (Qle_bool (inject_Z limit) n) eqn:E; [|discriminate].
  intros _. now apply Qle_bool_iff.
Qed.

Lemma unsafe_false (n : Q) :
  Joi.unsafe n = false ->
  (inject_Z (- Joi.MAX_SAFE_INTEGER) <= n)%Q /\ (n <= inject_Z Joi.MAX_SAFE_INTEGER)%Q.
Proof.
  unfold Joi.unsafe. intros H. apply orb_false_elim in H as [H1 H2].
  apply negb_false_iff in H1, H2. split; now apply Qle_bool_iff.
Qed.

End RouteFacts.

(** X9.  POST /api/clients always answers, and with 400, 201 or 500
    only.  It answers 400 with an error body, leaving the outside as it
    was, when validation fails; otherwise the facade is called once, with
    the payload's own name, e-mail and address, none of them empty, the
    e-mail one the address check accepts, and an id that is absent or not
    empty; the answer is 201 when the call resolves and 500 with the
    failure's message when it rejects. *)
Theorem clients_route_answers (coerceNumber : string -> Joi.Coercion)
  (isEmailValid : string -> bool) (W : Type)
  (facade_add : Call W clientAdm.AddClientFacadeInputDto unit) (reqBody : Obj) (w : W) :
  (exists message,
      routes.clients coerceNumber isEmailValid facade_add reqBody w
      = Some (mkResponse 400 (errorBody message), w))
  \/ exists input,
      prop reqBody "name" = JsString (clientAdm.name input)
      /\ prop reqBody "email" = JsString (clientAdm.email input)
      /\ prop reqBody "address" = JsString (clientAdm.address input)
      /\ asOptionalString (prop reqBody "id") = Some (clientAdm.id input)
      /\ clientAdm.name input <> "" /\ clientAdm.email input <> ""
      /\ clientAdm.address input <> "" /\ clientAdm.id input <> Some ""
      /\ isEmailValid (clientAdm.email input) = true
      /\ routes.clients coerceNumber isEmailValid facade_add reqBody w
         = Some (clientAdm.post facade_add input w)
      /\ ((exists u w',
              facade_add input w = (Resolved u, w')
              /\ clientAdm.post facade_add input w
                 = (mkResponse 201 [("message", JsString "Client created successfully")], w'))
          \/ (exists e w',
                 facade_add input w = (Rejected e, w')
                 /\ clientAdm.post facade_add input w
                    = (mkResponse 500 (errorBody (messageOf e)), w'))).
Proof.
  unfold routes.clients, chain.
  destruct (validateBody coerceNumber isEmailValid clientAdm.createClientSchema reqBody)
    as [res|value] eqn:Hv.
  - left. apply stage_responded in Hv as (message & ->). eauto.
  - right.
    pose proof (fun key child Hin =>
                  forwarded_child coerceNumber isEmailValid _ reqBody value key child
                    createClientSchema_keys Hin Hv) as Hfw.
    destruct (Hfw "id" (Joi.TString [] Joi.Optional)) as [Hide Hidv]; [cbn; auto|].
    destruct (Hfw "name" (Joi.TString [] Joi.Required)) as [Hne Hnv]; [cbn; auto|].
    destruct (Hfw "email" (Joi.TString [Joi.Email] Joi.Required)) as [Hee Hev]; [cbn; auto|].
    destruct (Hfw "address" (Joi.TString [] Joi.Required)) as [Hae Hav]; [cbn; auto 6|].
    apply plain_string_ok in Hide as [Hidr Hid].
    apply plain_string_ok in Hne as [Hnr [[_ Hn]|(name & Hn & Hn')]]; [discriminate|].
    apply email_ok in Hee as (email & He & He' & Hvalid & Her).
    apply plain_string_ok in Hae as [Har [[_ Ha]|(address & Ha & Ha')]]; [discriminate|].
    rewrite Hidr in Hidv. rewrite Hnr, Hn in Hnv. rewrite Her, He in Hev.
    rewrite Har, Ha in Hav.
    assert (Hopt : exists id, asOptionalString (prop reqBody "id") = Some id /\ id <> Some "").
    { destruct Hid as [[-> _]|(s & -> & Hs)]; cbn; eexists; (split; [reflexivity|]);
        congruence. }
    destruct Hopt as (id & Hopt & Hid').
    exists (clientAdm.mkAddClientInput id name email address). cbn.
    repeat (split; [assumption|]).
    assert (Hd : clientAdm.destructure value
                 = Some (clientAdm.mkAddClientInput id name email address)).
    { unfold clientAdm.destructure. rewrite Hidv, Hnv, Hev, Hav, Hopt. reflexivity. }
    rewrite Hd. split; [reflexivity|].
    unfold clientAdm.post.
    destruct (facade_add (clientAdm.mkAddClientInput id name email address) w)
      as [[u|e] w']; [left | right]; eauto.
Qed.

(** X10.  POST /api/products always answers, and with 400, 201 or 500
    only.  When validation passes, the facade is called once with a name
    and a description that are not empty, a purchase price above 0 and a
    stock that is a whole number, at least 0, both within the safe
    integers and both numbers even when the payload gave them as numeric
    strings; otherwise the answer is 400 and the outside is as it was. *)
Theorem products_route_answers (coerceNumber : string -> Joi.Coercion)
  (isEmailValid : string -> bool) (W : Type)
  (facade_addProduct : Call W productAdm.AddProductFacadeInputDto unit)
  (reqBody : Obj) (w : W) :
  (exists message,
      routes.products coerceNumber isEmailValid facade_addProduct reqBody w
      = Some (mkResponse 400 (errorBody message), w))
  \/ exists input,
      prop reqBody "name" = JsString (productAdm.name input)
      /\ prop reqBody "description" = JsString (productAdm.description input)
      /\ Spec.numeric coerceNumber (prop reqBody "purchasePrice")
         = Some (productAdm.purchasePrice input)
      /\ Spec.numeric coerceNumber (prop reqBody "stock") = Some (productAdm.stock input)
      /\ asOptionalString (prop reqBody "id") = Some (productAdm.id input)
      /\ productAdm.name input <> "" /\ productAdm.description input <> ""
      /\ productAdm.id input <> Some ""
      /\ (0 < productAdm.purchasePrice input)%Q
      /\ (productAdm.purchasePrice input <= inject_Z Joi.MAX_SAFE_INTEGER)%Q
      /\ (0 <= productAdm.stock input)%Q
      /\ (productAdm.stock input <= inject_Z Joi.MAX_SAFE_INTEGER)%Q
      /\ Joi.isInteger (productAdm.stock input) = true
      /\ routes.products coerceNumber isEmailValid facade_addProduct reqBody w
         = Some (productAdm.post facade_addProduct input w)
      /\ ((exists u w',
              facade_addProduct input w = (Resolved u, w')
              /\ productAdm.post facade_addProduct input w
                 = (mkResponse 201 [("message", JsString "Product created successfully")], w'))
          \/ (exists e w',
                 facade_addProduct input w = (Rejected e, w')
                 /\ productAdm.post facade_addProduct input w
                    = (mkResponse 500 (errorBody (messageOf e)), w'))).
Proof.
  unfold routes.products, chain.
  destruct (validateBody coerceNumber isEmailValid productAdm.createProductSchema reqBody)
    as [res|value] eqn:Hv.
  - left. apply stage_responded in Hv as (message & ->). eauto.
  - right.
    pose proof (fun key child Hin =>
                  forwarded_child coerceNumber isEmailValid _ reqBody value key child
                    createProductSchema_keys Hin Hv) as Hfw.
    destruct (Hfw "id" (Joi.TString [] Joi.Optional)) as [Hide Hidv]; [cbn; auto|].
    destruct (Hfw "name" (Joi.TString [] Joi.Required)) as [Hne Hnv]; [cbn; auto|].
    destruct (Hfw "description" (Joi.TString [] Joi.Required)) as [Hde Hdv]; [cbn; auto|].
    destruct (Hfw "purchasePrice" (Joi.TNumber [Joi.Positive] Joi.Required))
      as [Hpe Hpv]; [cbn; auto 6|].
    destruct (Hfw "stock" (Joi.TNumber [Joi.Integer; Joi.Min 0] Joi.Required))
      as [Hse Hsv]; [cbn; auto 7|].
    apply plain_string_ok in Hide as [Hidr Hid].
    apply plain_string_ok in Hne as [Hnr [[_ Hn]|(name & Hn & Hn')]]; [discriminate|].
    apply plain_string_ok in Hde as [Hdr [[_ Hd]|(description & Hd & Hd')]]; [discriminate|].
    apply required_number_ok in Hpe as (price & Hpr & Hpn & Hps & Hprules).
    apply required_number_ok in Hse as (stock & Hsr & Hsn & Hss & Hsrules).
    rewrite Hidr in Hidv. rewrite Hnr, Hn in Hnv. rewrite Hdr, Hd in Hdv.
    rewrite Hpr in Hpv. rewrite Hsr in Hsv.
    assert (Hopt : exists id, asOptionalString (prop reqBody "id") = Some id /\ id <> Some "").
    { destruct Hid as [[-> _]|(s & -> & Hs)]; cbn; eexists; (split; [reflexivity|]);
        congruence. }
    destruct Hopt as (id & Hopt & Hid').
    pose proof (positive_rule _ _ (Hprules Joi.Positive (or_introl eq_refl))) as Hpos.
    pose proof (integer_rule _ _ (Hsrules Joi.Integer (or_introl eq_refl))) as Hint.
    pose proof (min_rule _ _ _ (Hsrules (Joi.Min 0) (or_intror (or_introl eq_refl)))) as Hmin.
    apply unsafe_false in Hps as [_ Hpmax]. apply unsafe_false in Hss as [_ Hsmax].
    exists (productAdm.mkAddProductInput id name description price stock). cbn.
    repeat (split; [assumption|]).
    assert (Hdes : productAdm.destructure value
                   = Some (productAdm.mkAddProductInput id name description price stock)).
    { unfold productAdm.destructure. rewrite Hidv, Hnv, Hdv, Hpv, Hsv, Hopt. reflexivity. }
    rewrite Hdes. split; [reflexivity|].
    unfold productAdm.post.
    destruct (facade_addProduct (productAdm.mkAddProductInput id name description price stock) w)
      as [[u|e] w']; [left | right]; eauto.
Qed.

(** X11.  POST /api/payments always answers, and with 400, 200, 422 or
    500 only.  When validation passes, the facade is called once with an
    order id that is not empty and an amount above 0 and within the safe
    integers; the answer is 200 when the call resolves with status
    'approved', 422 when it resolves with any other status, the result
    being the body either way, and 500 when it rejects.  Otherwise the
    answer is 400 and the outside is as it was. *)
Theorem payments_route_answers (coerceNumber : string -> Joi.Coercion)
  (isEmailValid : string -> bool) (W : Type)
  (facade_process : Call W payment.ProcessPaymentFacadeInputDto Obj)
  (reqBody : Obj) (w : W) :
  (exists message,
      routes.payments coerceNumber isEmailValid facade_process reqBody w
      = Some (mkResponse 400 (errorBody message), w))
  \/ exists input,
      prop reqBody "orderId" = JsString (payment.orderId input)
      /\ Spec.numeric coerceNumber (prop reqBody "amount") = Some (payment.amount input)
      /\ payment.orderId input <> ""
      /\ (0 < payment.amount input)%Q
      /\ (payment.amount input <= inject_Z Joi.MAX_SAFE_INTEGER)%Q
      /\ routes.payments coerceNumber isEmailValid facade_process reqBody w
         = Some (payment.post facade_process input w)
      /\ ((exists result w',
              facade_process input w = (Resolved result, w')
              /\ prop result "status" = JsString "approved"
              /\ payment.post facade_process input w = (mkResponse 200 result, w'))
          \/ (exists result w',
                 facade_process input w = (Resolved result, w')
                 /\ prop result "status" <> JsString "approved"
                 /\ payment.post facade_process input w = (mkResponse 422 result, w'))
          \/ (exists e w',
                 facade_process input w = (Rejected e, w')
                 /\ payment.post facade_process input w
                    = (mkResponse 500 (errorBody (messageOf e)), w'))).
Proof.
  unfold routes.payments, chain.
  destruct (validateBody coerceNumber isEmailValid payment.processPaymentSchema reqBody)
    as [res|value] eqn:Hv.
  - left. apply stage_responded in Hv as (message & ->). eauto.
  - right.
    pose proof (fun key child Hin =>
                  forwarded_child coerceNumber isEmailValid _ reqBody value key child
                    processPaymentSchema_keys Hin Hv) as Hfw.
    destruct (Hfw "orderId" (Joi.TString [] Joi.Required)) as [Hoe Hov]; [cbn; auto|].
    destruct (Hfw "amount" (Joi.TNumber [Joi.Positive] Joi.Required)) as [Hae Hav];
      [cbn; auto|].
    apply plain_string_ok in Hoe as [Hor [[_ Ho]|(orderId & Ho & Ho')]]; [discriminate|].
    apply required_number_ok in Hae as (amount & Har & Han & Has & Harules).
    rewrite Hor, Ho in Hov. rewrite Har in Hav.
    pose proof (positive_rule _ _ (Harules Joi.Positive (or_introl eq_refl))) as Hpos.
    apply unsafe_false in Has as [_ Hmax].
    exists (payment.mkInput orderId amount). cbn.
    repeat (split; [assumption|]).
    assert (Hdes : payment.destructure value = Some (payment.mkInput orderId amount)).
    { unfold payment.destructure. rewrite Hov, Hav. reflexivity. }
    rewrite Hdes. split; [reflexivity|].
    unfold payment.post.
    destruct (facade_process (payment.mkInput orderId amount) w) as [[result|e] w'].
    + destruct (strictEqString (prop result "status") "approved") eqn:E.
      * left. exists result, w'. apply strictEqString_spec in E. auto.
      * right. left. exists result, w'. split; [reflexivity|]. split; [|reflexivity].
        intros H. apply strictEqString_spec in H. congruence.
    + right. right. eauto.
Qed.

(** ** What the validation stage says about a field *)

(** A detail of a declared field is answered 400, its message being part
    of the answer. *)
Lemma child_detail_reported (coerceNumber : string -> Joi.Coercion)
  (isEmailValid : string -> bool) (schema : Joi.ObjectSchema) (reqBody : Obj)
  (key : string) (child : Joi.Schema) (d : Joi.Detail) :
  NoDup (map fst schema) -> In (key, child) schema ->
  In d (Joi.validateChild coerceNumber isEmailValid key child (prop reqBody key)).2 ->
  exists message,
    validateBody coerceNumber isEmailValid schema reqBody
    = Responded (mkResponse 400 (errorBody message))
    /\ Str.Substring (Joi.message d) message.
Proof.
  intros Hnd Hin Hd. apply detail_reported. rewrite (details_eq _ _ _ _ Hnd).
  apply in_or_app. left. apply in_flat_map. exists (key, child). split; [exact Hin|].
  exact Hd.
Qed.



(** X13.  A required field that the payload does not have is named: for
    every schema, the answer is 400 and its message says that the field
    is required, whatever else is wrong with the payload. *)
Theorem missing_required_field_is_named (coerceNumber : string -> Joi.Coercion)
  (isEmailValid : string -> bool) (schema : Joi.ObjectSchema) (reqBody : Obj)
  (key : string) (child : Joi.Schema) :
  NoDup (map fst schema) -> In (key, child) schema -> Reads.required child ->
  own reqBody key = None ->
  exists message,
    validateBody coerceNumber isEmailValid schema reqBody
    = Responded (mkResponse 400 (errorBody message))
    /\ Str.Substring (Joi.label key +:+ " is required") message.
Proof.
  intros Hnd Hin Hreq Hown.
  apply (child_detail_reported coerceNumber isEmailValid schema reqBody key child
           (Joi.report "any.required" key "is required") Hnd Hin).
  unfold prop. rewrite Hown.
  destruct child as [rules presence|rules presence]; cbn in Hreq; subst presence;
    cbn; now left.
Qed.

Lemma missing_required_field_is_named_witness :
  exists message,
    validateBody examples.coerceNumber examples.isEmailValid payment.processPaymentSchema
      [ ("amount", JsNumber 150) ]
    = Responded (mkResponse 400 (errorBody message))
    /\ Str.Substring (Joi.label "orderId" +:+ " is required") message.
Proof.
  apply (missing_required_field_is_named examples.coerceNumber examples.isEmailValid
           payment.processPaymentSchema [ ("amount", JsNumber 150) ]
           "orderId" (Joi.TString [] Joi.Required) processPaymentSchema_keys).
  - cbn. auto.
  - reflexivity.
  - reflexivity.
Defined.

(** X14.  A field of the wrong type is named with the type expected: a
    value that is not a string, given for a string field, gets "must be a
    string"; a value that is neither a number nor a string Joi can
    convert, given for a number field, gets "must be a number".  The
    answer is 400. *)
Theorem wrong_type_is_named (coerceNumber : string -> Joi.Coercion)
  (isEmailValid : string -> bool) (schema : Joi.ObjectSchema) (reqBody : Obj)
  (key : string) :
  NoDup (map fst schema) -> prop reqBody key <> JsUndefined ->
  (forall rules presence,
      In (key, Joi.TString rules presence) schema ->
      asString (prop reqBody key) = None ->
      exists message,
        validateBody coerceNumber isEmailValid schema reqBody
        = Responded (mkResponse 400 (errorBody message))
        /\ Str.Substring (Joi.label key +:+ " must be a string") message)
  /\ (forall rules presence,
        In (key, Joi.TNumber rules presence) schema ->
        Spec.numeric coerceNumber (prop reqBody key) = None ->
        exists message,
          validateBody coerceNumber isEmailValid schema reqBody
          = Responded (mkResponse 400 (errorBody message))
          /\ Str.Substring (Joi.label key +:+ " must be a number") message).
Proof.
  intros Hnd Hdef. split; intros rules presence Hin Hbad.
  - apply (child_detail_reported coerceNumber isEmailValid schema reqBody key _
             (Joi.report "string.base" key "must be a string") Hnd Hin).
    destruct (prop reqBody key); cbn in *; try discriminate; try congruence; now left.
  - apply (child_detail_reported coerceNumber isEmailValid schema reqBody key _
             (Joi.report "number.base" key "must be a number") Hnd Hin).
    destruct (prop reqBody key); cbn in *; try discriminate; try congruence; try now left.
    destruct (coerceNumber s); try discriminate. now left.
Qed.

Lemma wrong_type_is_named_witness :
  exists message,
    validateBody examples.coerceNumber examples.isEmailValid payment.processPaymentSchema
      [ ("orderId", JsString "order-001"); ("amount", JsBoolean true) ]
    = Responded (mkResponse 400 (errorBody message))
    /\ Str.Substring (Joi.label "amount" +:+ " must be a number") message.
Proof.
  apply (proj2 (wrong_type_is_named examples.coerceNumber examples.isEmailValid
                  payment.processPaymentSchema
                  [ ("orderId", JsString "order-001"); ("amount", JsBoolean true) ]
                  "amount" processPaymentSchema_keys ltac:(discriminate))
           [Joi.Positive] Joi.Required).
  - cbn. auto.
  - reflexivity.
Defined.




(** ** Validating twice *)

Lemma setOwn_same (o : Obj) (k : string) (v : JsValue) :
  own o k = Some v -> Joi.setOwn o k v = o.
Proof.
  induction o as [|[k' v'] o IH]; cbn; [discriminate|].
  destruct (String.eqb k' k); [congruence|]. intros H. now rewrite IH.
Qed.

(** A child that passed results in a value it passes again, unchanged. *)
Lemma validateChild_stable (coerceNumber : string -> Joi.Coercion)
  (isEmailValid : string -> bool) (key : string) (child : Joi.Schema) (item : JsValue) :
  (Joi.validateChild coerceNumber isEmailValid key child item).2 = [] ->
  Joi.validateChild coerceNumber isEmailValid key child
    (Joi.validateChild coerceNumber isEmailValid key child item).1
  = ((Joi.validateChild coerceNumber isEmailValid key child item).1, []).
Proof.
  assert (Hcheck : forall rules n,
             (Joi.checkNumber key rules n).2 = [] ->
             Joi.checkNumber key rules n = (JsNumber n, [])).
  { intros rules n. unfold Joi.checkNumber. destruct (Joi.unsafe n); cbn; [discriminate|].
    now intros ->. }
  destruct child as [rules presence|rules presence]; destruct item; cbn; try discriminate.
  - now intros ->.
  - destruct (String.eqb s "") eqn:E; cbn; [discriminate|]. intros H. now rewrite E, H.
  - now intros ->.
  - intros H. rewrite (Hcheck _ _ H). cbn. now apply Hcheck.
  - destruct (coerceNumber s) as [|n|n]; cbn; try discriminate.
    intros H. rewrite (Hcheck _ _ H). cbn. now apply Hcheck.
Qed.

(** A value every child passes unchanged comes out of the loop as it
    went in. *)
Lemma validateKeys_fixpoint (coerceNumber : string -> Joi.Coercion)
  (isEmailValid : string -> bool) (children : Joi.ObjectSchema) (value : Obj) :
  (forall key child,
      In (key, child) children ->
      Joi.validateChild coerceNumber isEmailValid key child (prop value key)
      = (prop value key, [])) ->
  Joi.validateKeys coerceNumber isEmailValid children value = (value, []).
Proof.
  induction children as [|[key child] rest IH]; intros Hall; [reflexivity|].
  cbn [Joi.validateKeys]. rewrite (Hall key child (or_introl eq_refl)).
  assert (Hsame : match prop value key with
                  | JsUndefined => value
                  | _ => Joi.setOwn value key (prop value key)
                  end = value).
  { unfold prop. destruct (own value key) as [v|] eqn:E; [|reflexivity].
    destruct v; try reflexivity; now apply setOwn_same. }
  rewrite Hsame. rewrite IH; [reflexivity|].
  intros k c Hin. apply Hall. now right.
Qed.

(** X16.  What the validation stage forwards is normalised for good:
    validated again against the same schema it is accepted and forwarded
    unchanged. *)
Theorem validation_is_idempotent (coerceNumber : string -> Joi.Coercion)
  (isEmailValid : string -> bool) (schema : Joi.ObjectSchema) (reqBody value : Obj) :
  NoDup (map fst schema) ->
  validateBody coerceNumber isEmailValid schema reqBody = Next value ->
  validateBody coerceNumber isEmailValid schema value = Next value.
Proof.
  intros Hnd Hv.
  assert (Hfix : Joi.validateKeys coerceNumber isEmailValid schema value = (value, [])).
  { apply validateKeys_fixpoint. intros key child Hin.
    destruct (forwarded_child coerceNumber isEmailValid schema reqBody value key child
                Hnd Hin Hv) as [Herr Hprop].
    rewrite Hprop. now apply validateChild_stable. }
  assert (Hunknown : Joi.unknownKeys schema value = []).
  { revert Hv. rewrite validateBody_cases.
    destruct (Spec.details coerceNumber isEmailValid schema reqBody) as [|d ds] eqn:Hd;
      [|discriminate].
    intros Hv.
    assert (Hvalue : value = (Joi.validateKeys coerceNumber isEmailValid schema reqBody).1)
      by congruence.
    rewrite details_app in Hd. apply app_eq_nil in Hd as [_ Hd].
    unfold Joi.unknownKeys in *. rewrite Hvalue, validateKeys_keys. exact Hd. }
  unfold validateBody, Joi.validate. now rewrite Hfix, Hunknown.
Qed.

Lemma validation_is_idempotent_witness :
  validateBody examples.coerceNumber examples.isEmailValid payment.processPaymentSchema
    [ ("orderId", JsString "o1"); ("amount", JsString "150") ]
  = Next [ ("orderId", JsString "o1"); ("amount", JsNumber (inject_Z 150)) ]
  /\ validateBody examples.coerceNumber examples.isEmailValid payment.processPaymentSchema
       [ ("orderId", JsString "o1"); ("amount", JsNumber (inject_Z 150)) ]
     = Next [ ("orderId", JsString "o1"); ("amount", JsNumber (inject_Z 150)) ].
Proof.
  split; [reflexivity|].
  apply (validation_is_idempotent examples.coerceNumber examples.isEmailValid
           payment.processPaymentSchema
           [ ("orderId", JsString "o1"); ("amount", JsString "150") ]
           [ ("orderId", JsString "o1"); ("amount", JsNumber (inject_Z 150)) ]
           processPaymentSchema_keys eq_refl).
Defined.

(** ** The bootstrap script *)

Lemma insertClient_keeps (now : Z) (row : string * string * string * string)
  (rows rows' : gmap string initSql.Client) :
  initSql.insertClient now row rows = Some rows' ->
  (forall id r, rows !! id = Some r -> rows' !! id = Some r)
  /\ (forall e, initSql.hasEmail e rows -> initSql.hasEmail e rows')
  /\ initSql.hasEmail row.1.2 rows'.
Proof.
  destruct row as [[[id name] email] address]. unfold initSql.insertClient. cbn [fst snd].
  destruct (decide (initSql.hasEmail email rows)) as [Hhas|Hnot].
  - intros H. injection H as <-. auto.
  - destruct (rows !! id) eqn:Hid; [discriminate|]. intros H. injection H as <-.
    split; [|split].
    + intros k r Hk. rewrite lookup_insert_ne; [exact Hk|]. congruence.
    + intros e (k & r & Hk & He). exists k, r. split; [|exact He].
      rewrite lookup_insert_ne; [exact Hk|]. congruence.
    + eexists id, _. split; [apply lookup_insert_eq | reflexivity].
Qed.

Lemma insertClients_keeps (now : Z) (l : list (string * string * string * string))
  (rows rows' : gmap string initSql.Client) :
  initSql.insertClients now l rows = Some rows' ->
  (forall id r, rows !! id = Some r -> rows' !! id = Some r)
  /\ (forall e, initSql.hasEmail e rows -> initSql.hasEmail e rows')
  /\ Forall (fun row => initSql.hasEmail row.1.2 rows') l.
Proof.
  revert rows. induction l as [|row l IH]; intros rows; cbn.
  - intros H. injection H as <-. auto.
  - destruct (initSql.insertClient now row rows) as [rows1|] eqn:E; [|discriminate].
    intros H. destruct (insertClient_keeps _ _ _ _ E) as (Hk1 & He1 & Hnew).
    destruct (IH _ H) as (Hk & He & Hall). split; [|split]; auto.
Qed.

(** Rows whose e-mails are all taken change nothing, whatever their ids. *)
Lemma insertClients_noop (now : Z) (l : list (string * string * string * string))
  (rows : gmap string initSql.Client) :
  Forall (fun row => initSql.hasEmail row.1.2 rows) l ->
  initSql.insertClients now l rows = Some rows.
Proof.
  induction 1 as [|[[[id name] email] address] l Hrow _ IH]; [reflexivity|].
  cbn in *. now rewrite decide_True.
Qed.

Lemma insertProduct_keeps (now : Z) (row : string * string * string * Q * Q * Z)
  (rows : gmap string initSql.Product) :
  (forall id r, rows !! id = Some r -> initSql.insertProduct now row rows !! id = Some r)
  /\ is_Some (initSql.insertProduct now row rows !! row.1.1.1.1.1).
Proof.
  destruct row as [[[[[id name] description] purchase] sales] stock].
  unfold initSql.insertProduct. cbn [fst snd].
  destruct (rows !! id) eqn:Hid.
  - split; [auto|]. rewrite Hid. eauto.
  - split.
    + intros k r Hk. rewrite lookup_insert_ne; [exact Hk|]. congruence.
    + rewrite lookup_insert_eq. eauto.
Qed.

Lemma insertProducts_keeps (now : Z) (l : list (string * string * string * Q * Q * Z))
  (rows : gmap string initSql.Product) :
  (forall id r, rows !! id = Some r -> initSql.insertProducts now l rows !! id = Some r)
  /\ Forall (fun row => is_Some (initSql.insertProducts now l rows !! row.1.1.1.1.1)) l.
Proof.
  unfold initSql.insertProducts. revert rows.
  induction l as [|row l IH]; intros rows; cbn; [auto|].
  destruct (insertProduct_keeps now row rows) as [Hk1 Hnew].
  destruct (IH (initSql.insertProduct now row rows)) as [Hk Hall].
  split; [auto|]. constructor; [|exact Hall].
  destruct Hnew as [r Hr]. rewrite (Hk _ _ Hr). eauto.
Qed.

(** Rows whose ids are all taken change nothing. *)
Lemma insertProducts_noop (now : Z) (l : list (string * string * string * Q * Q * Z))
  (rows : gmap string initSql.Product) :
  Forall (fun row => is_Some (rows !! row.1.1.1.1.1)) l ->
  initSql.insertProducts now l rows = rows.
Proof.
  unfold initSql.insertProducts.
  induction 1 as [|[[[[[id name] description] purchase] sales] stock] l [r Hr] _ IH];
    [reflexivity|].
  cbn [fold_left fst snd] in *.
  assert (Hsame : initSql.insertProduct now (id, name, description, purchase, sales, stock)
                    rows = rows)
    by (unfold initSql.insertProduct; now rewrite Hr).
  now rewrite Hsame.
Qed.

(** The script in one equation: only the clients' insert can fail. *)
Lemma init_eq (now now2 : Z) (db : initSql.Db) :
  initSql.init now now2 db
  = match initSql.insertClients now initSql.sampleClients
            (default ∅ (initSql.clients db)) with
    | Some clients' =>
        Some (initSql.mkDb ({[ "uuid-ossp" ]} ∪ initSql.extensions db) (Some "UTC")
                (Some clients')
                (Some (initSql.insertProducts now2 initSql.sampleProducts
                         (default ∅ (initSql.products db))))
                (Some (default ∅ (initSql.transactions db)))
                (initSql.indexNames ∪ initSql.indexes db))
    | None => None
    end.
Proof.
  assert (Hcreate : forall (Row : Type) (table : option (gmap string Row)),
             initSql.createIfNotExists table = Some (default ∅ table))
    by (now intros Row [rows|]).
  unfold initSql.init. rewrite !Hcreate. cbn [mbind option_bind].
  now destruct (initSql.insertClients now initSql.sampleClients
                  (default ∅ (initSql.clients db))).
Qed.

Lemma init_success (now now2 : Z) (db db' : initSql.Db) :
  initSql.init now now2 db = Some db' ->
  exists clients',
    initSql.insertClients now initSql.sampleClients (default ∅ (initSql.clients db))
    = Some clients'
    /\ db' = initSql.mkDb ({[ "uuid-ossp" ]} ∪ initSql.extensions db) (Some "UTC")
               (Some clients')
               (Some (initSql.insertProducts now2 initSql.sampleProducts
                        (default ∅ (initSql.products db))))
               (Some (default ∅ (initSql.transactions db)))
               (initSql.indexNames ∪ initSql.indexes db).
Proof.
  rewrite init_eq.
  destruct (initSql.insertClients now initSql.sampleClients
              (default ∅ (initSql.clients db))) as [clients'|]; [|discriminate].
  intros H. injection H as <-. eauto.
Qed.

(** X17.  The bootstrap script can be run again: on the database a
    successful run leaves, a second run succeeds and changes nothing, at
    any later time. *)
Theorem init_is_idempotent (now now2 now' now2' : Z) (db db' : initSql.Db) :
  initSql.init now now2 db = Some db' -> initSql.init now' now2' db' = Some db'.
Proof.
  intros Hrun. destruct (init_success _ _ _ _ Hrun) as (clients' & Hclients & ->).
  destruct (insertClients_keeps _ _ _ _ Hclients) as (_ & _ & Hemails).
  destruct (insertProducts_keeps now2 initSql.sampleProducts
              (default ∅ (initSql.products db))) as [_ Hids].
  assert (Hsome : forall (Row : Type) (rows : gmap string Row), default ∅ (Some rows) = rows)
    by reflexivity.
  rewrite init_eq. cbn [initSql.clients initSql.products initSql.transactions
                         initSql.extensions initSql.indexes].
  rewrite !Hsome.
  rewrite (insertClients_noop now' _ _ Hemails).
  rewrite (insertProducts_noop now2' _ _ Hids).
  f_equal. f_equal.
  - now rewrite (assoc_L (∪)), union_idemp_L.
  - now rewrite (assoc_L (∪)), union_idemp_L.
Qed.

Lemma init_is_idempotent_witness :
  exists db',
    initSql.init 1700000000000 1700000000005 initSql.empty = Some db'
    /\ initSql.init 1700000360000 1700000360005 db' = Some db'.
Proof.
  destruct (initSql.init 1700000000000 1700000000005 initSql.empty) as [db'|] eqn:Hrun.
  - exists db'. split; [reflexivity|].
    exact (init_is_idempotent 1700000000000 1700000000005 1700000360000 1700000360005
             initSql.empty db' Hrun).
  - exfalso. vm_compute in Hrun. discriminate Hrun.
Defined.


